(** * Beating heart: the procedural displacement engine

    A shallow embedding of the per-frame arithmetic of the two variants of
    the application script found in the repository:

    - [Part001] is [src/unnamed/part_001], the variant with pre-sized typed
      render buffers, pre-computed constants and the retrying error display;
    - [Part002] is [src/unnamed/part_002], the variant that rebuilds its
      render arrays with [push] every frame.

    Numbers.  A JavaScript number is idealised as an exact rational [Q]: the
    arithmetic of the source is kept operation by operation, in the order
    the source writes it, and rounding (of doubles, and of the values stored
    in a 32-bit typed array) is left out.  Equality of computed numbers is
    therefore [Qeq] ([==]) unless both sides are the same computation.

    Objects.  [null] and [undefined] are [None]; reading a property of
    [None] is the [TypeError] of the source and makes the enclosing
    operation return [None].  The noise generator, the palette and the
    surface sampler belong to external libraries and are taken as data. *)

From Stdlib Require Import QArith Qround Qabs Lqa ZArith Lia String.
From stdpp Require Import base option list gmap strings.

Open Scope Q_scope.

(** ** Numbers *)

(** The JavaScript comparison [a > b]. *)
Definition Qgtb (a b : Q) : bool :=
  match a ?= b with
  | Gt => true
  | _ => false
  end.

(** [Math.round]: the nearest integer, a half going up. *)
Definition Math_round (q : Q) : Z := Qfloor (q + 0.5).

(** [Math.min] and [Math.max] of two numbers. *)
Definition Math_min (a b : Q) : Q := if Qgtb a b then b else a.
Definition Math_max (a b : Q) : Q := if Qgtb a b then a else b.

(** ** Objects of the rendering library *)

(** [THREE.Vector3]. *)
Record Vector3 := mkVector3 { vx : Q; vy : Q; vz : Q }.

(** [Vector3.clone]: a fresh vector with the same components. *)
Definition clone (v : Vector3) : Vector3 := mkVector3 (vx v) (vy v) (vz v).

(** [Vector3.multiplyScalar]. *)
Definition multiplyScalar (v : Vector3) (s : Q) : Vector3 :=
  mkVector3 (vx v * s) (vy v * s) (vz v * s).

(** [THREE.Color]. *)
Record Color := mkColor { cr : Q; cg : Q; cb : Q }.

(** [SimplexNoise]: an instance is its four-input noise function. *)
Record SimplexNoise := mkSimplexNoise { noise4D : Q -> Q -> Q -> Q -> Q }.

(** The two attributes a frame submits to [this.geometry]; [None] until the
    first [setAttribute]. *)
Record BufferGeometry := mkBufferGeometry {
  attr_position : option (list Q);
  attr_color : option (list Q)
}.

(** ** CONFIG *)

Definition PARTICLE_COUNT : Z := 10000.
Definition PARTICLE_RANDOM_FACTOR : Q := 0.03.
Definition BEAT_MAX_VALUE : Q := 0.5.
Definition NOISE_SCALE : Q := 1.5.
Definition NOISE_FREQUENCY : Q := 500.
Definition NOISE_AMPLITUDE : Q := 0.15.
Definition MAX_Z : Q := 0.23.
Definition RATE_Z : Q := 0.5.

Definition FRAME_SKIP_THRESHOLD : Q := 16.
Definition AUDIO_VOLUME : Q := 0.7.

(** The constants [part_001] computes once at load time. *)
Definition PARTICLE_COUNT_6 : Z := (PARTICLE_COUNT * 6)%Z.
Definition MAX_Z_RATE_Z : Q := MAX_Z * RATE_Z.
Definition NOISE_SCALE_AMPLITUDE : Q := NOISE_SCALE * NOISE_AMPLITUDE.

(** ** SparkPoint *)

(** The fields of a [SparkPoint].  [color] is [None] when the palette lookup
    of the constructor yields [undefined]; [one] and [two] are [null] until
    the first [update]. *)
Record SparkPoint := mkSparkPoint {
  color : option Color;
  rand : Q;
  pos : Vector3;
  one : option Vector3;
  two : option Vector3;
  sp_simplex : SimplexNoise
}.

(** What one construction draws from its environment: the point written by
    [sampler.sample(pos)] and the two results of [Math.random()]. *)
Record Draw := mkDraw { sampled : Vector3; random_color : Q; random_rand : Q }.

(** [palette[Math.floor(u * palette.length)]]. *)
Definition pick (palette : list Color) (u : Q) : option Color :=
  let k := Qfloor (u * inject_Z (Z.of_nat (length palette))) in
  if (0 <=? k)%Z then palette !! Z.to_nat k else None.

(** [new SparkPoint(sampler, palette, simplex, pos)].  The sampler overwrites
    the shared vector [pos]; the spark keeps a clone of it. *)
Definition SparkPoint_new (d : Draw) (palette : list Color)
    (simplex : SimplexNoise) : SparkPoint :=
  mkSparkPoint (pick palette (random_color d))
               (random_rand d * PARTICLE_RANDOM_FACTOR)
               (clone (sampled d))
               None None simplex.

(** The fields a spark receives in its constructor. *)
Definition birth (s : SparkPoint) : option Color * Q * Vector3 :=
  (color s, rand s, pos s).

(** ** The application object *)

(** The fields of [HeartAnimation] the displacement engine reads or writes.
    [heart] stands for [this.heart.geometry.attributes.position.array], the
    live vertex buffer of the loaded mesh ([None] while [this.heart] is
    [null]); [beat] is [this.beat.a], written by the external tween;
    [shared_pos] is the scratch vector [this.pos] handed to the sampler. *)
Record HeartAnimation := mkHeartAnimation {
  heart : option (list Q);
  originHeart : option (list Q);
  geometry : BufferGeometry;
  spikes : list SparkPoint;
  positions : list Q;
  colors : list Q;
  beat : Q;
  simplex : SimplexNoise;
  shared_pos : Vector3;
  palette : list Color;
  isAnimating : bool
}.

Definition set_heart (h : option (list Q)) (st : HeartAnimation) :=
  mkHeartAnimation h (originHeart st) (geometry st) (spikes st)
    (positions st) (colors st) (beat st) (simplex st) (shared_pos st)
    (palette st) (isAnimating st).

Definition set_originHeart (o : option (list Q)) (st : HeartAnimation) :=
  mkHeartAnimation (heart st) o (geometry st) (spikes st)
    (positions st) (colors st) (beat st) (simplex st) (shared_pos st)
    (palette st) (isAnimating st).

Definition set_particles (g : BufferGeometry) (sp : list SparkPoint)
    (ps cs : list Q) (st : HeartAnimation) :=
  mkHeartAnimation (heart st) (originHeart st) g sp ps cs (beat st)
    (simplex st) (shared_pos st) (palette st) (isAnimating st).

Definition set_spikes (sp : list SparkPoint) (p : Vector3)
    (st : HeartAnimation) :=
  mkHeartAnimation (heart st) (originHeart st) (geometry st) sp
    (positions st) (colors st) (beat st) (simplex st) p
    (palette st) (isAnimating st).

Definition set_beat (b : Q) (st : HeartAnimation) :=
  mkHeartAnimation (heart st) (originHeart st) (geometry st) (spikes st)
    (positions st) (colors st) b (simplex st) (shared_pos st)
    (palette st) (isAnimating st).

Definition set_isAnimating (a : bool) (st : HeartAnimation) :=
  mkHeartAnimation (heart st) (originHeart st) (geometry st) (spikes st)
    (positions st) (colors st) (beat st) (simplex st) (shared_pos st)
    (palette st) a.

(** [setupSampler]: [Array.from] copies the vertex buffer, so later writes
    to the buffer do not reach [originHeart]. *)
Definition setupSampler (st : HeartAnimation) : option HeartAnimation :=
  vs ← heart st;
  Some (set_originHeart (Some vs) st).

(** The vector [this.pos] after [n] constructions: the last sample. *)
Definition last_sample (draws : nat -> Draw) (n : nat) (p : Vector3) : Vector3 :=
  match n with
  | O => p
  | S k => sampled (draws k)
  end.

(** [initParticles]: [PARTICLE_COUNT] constructions, the [i]-th of which
    draws [draws i]. *)
Definition initParticles (draws : nat -> Draw) (st : HeartAnimation)
    : HeartAnimation :=
  let n := Z.to_nat PARTICLE_COUNT in
  set_spikes
    (map (fun i => SparkPoint_new (draws i) (palette st) (simplex st))
         (seq 0 n))
    (last_sample draws n (shared_pos st))
    st.

(** The three numbers a layer appends for a position, and for a colour. *)
Definition xyz (v : Vector3) : list Q := [vx v; vy v; vz v].
Definition rgb (c : Color) : list Q := [cr c; cg c; cb c].

(** ** The error display *)

(** What a click handler of the page does when it runs. *)
Inductive Callback := RetryLoadHeartModel | ReloadPage.

(** The requests a handler sends to the outside. *)
Inductive Effect := LoaderLoad (url : string) | LocationReload.

(** The button [#error-retry]. *)
Record RetryButton := mkRetryButton {
  onclick : option Callback;
  style_display : string
}.

(** The content of the element [#loading]. *)
Inductive LoadingContent :=
| LoadingBar
| ErrorText (message advice : string).

(** The elements of the page the error paths look up; [None] when
    [getElementById] finds nothing.  [error_display] holds the [hidden]
    flag of [#error-display], [error_message] the text of
    [#error-message]. *)
Record Document := mkDocument {
  error_display : option bool;
  error_message : option string;
  error_retry : option RetryButton;
  loading : option LoadingContent
}.

Definition heart_url : string := "https://assets.codepen.io/127738/heart_2.obj".

(** [loadHeartModel]: the request [loader.load(url, ...)]. *)
Definition loadHeartModel : list Effect := [LoaderLoad heart_url].

Definition run_callback (c : Callback) : list Effect :=
  match c with
  | RetryLoadHeartModel => loadHeartModel
  | ReloadPage => [LocationReload]
  end.

(** A click on [#error-retry]. *)
Definition click_retry (doc : Document) : list Effect :=
  match error_retry doc with
  | Some btn =>
      match onclick btn with
      | Some c => run_callback c
      | None => []
      end
  | None => []
  end.

(** ** The page around the engine *)

(** The [Audio] element: the code reads [paused] and writes the other three
    properties; whether a [play()] starts the sound is up to the browser, so
    [play()] and [pause()] are requests sent out, not writes of [paused]. *)
Record Audio := mkAudio {
  paused : bool;
  volume : Q;
  audio_loop : bool;
  currentTime : Q
}.

(** The overlay [#music-controls]. *)
Record MusicControls := mkMusicControls {
  mc_hidden : bool;
  mc_opacity : string
}.

(** What a timer of the key handler does when it expires. *)
Inductive TimerAction := HideMusicControls | RemoveNotification.

(** What a key press sends out: the callback given to
    [renderer.setAnimationLoop] ([true] for the render callback, [false] for
    [null]), the requests to the audio element, the notification of
    [showLoopStatus], the live region of [Utils.updateAriaLive] (which removes
    itself), and [setTimeout]. *)
Inductive UiEffect :=
| SetAnimationLoop (callback : bool)
| AudioPlay
| AudioPause
| LoopStatus (enabled : bool)
| AriaLive (message priority : string)
| SetTimeout (action : TimerAction) (ms : Z).

(** The objects a key press reaches: the engine, the position of the
    camera, the audio element and the overlay ([None] when absent). *)
Record Page := mkPage {
  app : HeartAnimation;
  camera_x : Q;
  camera_y : Q;
  audio : option Audio;
  musicControls : option MusicControls
}.

(** The progress bar and the loading text; [None] when
    [getElementById] finds nothing.  [progress_bar] holds the width in
    percent, [loading_text] the whole percentage of the text. *)
Record LoadingUI := mkLoadingUI {
  progress_bar : option Q;
  loading_text : option Z
}.

(** ** [src/unnamed/part_001] *)

Module Part001.

(** The constructor: two typed arrays of [PARTICLE_COUNT_6] zeros. *)
Definition new_HeartAnimation (sx : SimplexNoise) (pal : list Color)
    : HeartAnimation :=
  mkHeartAnimation None None (mkBufferGeometry None None) []
    (replicate (Z.to_nat PARTICLE_COUNT_6) 0)
    (replicate (Z.to_nat PARTICLE_COUNT_6) 0)
    0 sx (mkVector3 0 0 0) pal false.

(** [SparkPoint.update(beat)], with [b] the value of [beat.a]. *)
Definition update (b : Q) (s : SparkPoint) : SparkPoint :=
  let noise :=
    noise4D (sp_simplex s)
      (vx (pos s) * 1) (vy (pos s) * 1) (vz (pos s) * 1) 0.1 + 1.5 in
  let noise2 :=
    noise4D (sp_simplex s)
      (vx (pos s) * NOISE_FREQUENCY)
      (vy (pos s) * NOISE_FREQUENCY)
      (vz (pos s) * NOISE_FREQUENCY) 1 + 1 in
  mkSparkPoint (color s) (rand s) (pos s)
    (Some (multiplyScalar (clone (pos s))
             (1.01 + noise * NOISE_SCALE_AMPLITUDE * b)))
    (Some (multiplyScalar (clone (pos s))
             (1 + noise2 * (b + 0.3) - b * 1.2)))
    (sp_simplex s).

(** The condition of the first particle layer:
    [MAX_Z_RATE_Z + rand > one.z && one.z > -MAX_Z_RATE_Z - rand]. *)
Definition nearLayerTest (r : Q) (o1 : Vector3) : bool :=
  Qgtb (MAX_Z_RATE_Z + r) (vz o1) && Qgtb (vz o1) (- MAX_Z_RATE_Z - r).

(** The condition of the second particle layer:
    [MAX_Z_RATE_Z + rand * 2 > one.z && one.z > -MAX_Z_RATE_Z - rand * 2]. *)
Definition farLayerTest (r : Q) (o1 : Vector3) : bool :=
  Qgtb (MAX_Z_RATE_Z + r * 2) (vz o1)
  && Qgtb (vz o1) (- MAX_Z_RATE_Z - r * 2).

(** The locals [posIdx], [colorIdx] and the two typed arrays they index. *)
Record Cursor := mkCursor {
  posIdx : nat;
  colorIdx : nat;
  buf_positions : list Q;
  buf_colors : list Q
}.

(** The body of one layer: three stores [positions[posIdx++] = ...] and
    three stores [colors[colorIdx++] = ...].  A store past the end of a
    typed array is ignored, as is stdpp's insertion. *)
Definition writeLayer (v : option Vector3) (col : option Color) (c : Cursor)
    : option Cursor :=
  p ← v;
  k ← col;
  Some (mkCursor (posIdx c + 3) (colorIdx c + 3)
          (<[(posIdx c + 2)%nat := vz p]>
             (<[(posIdx c + 1)%nat := vy p]>
                (<[posIdx c := vx p]> (buf_positions c))))
          (<[(colorIdx c + 2)%nat := cb k]>
             (<[(colorIdx c + 1)%nat := cg k]>
                (<[colorIdx c := cr k]> (buf_colors c))))).

(** The loop over [spikes]: each spark is updated in place, then its two
    layers are tested against the z of [one]. *)
Fixpoint particleLoop (b : Q) (sp : list SparkPoint) (c : Cursor)
    : option (list SparkPoint * Cursor) :=
  match sp with
  | [] => Some ([], c)
  | spike :: rest =>
      let spike := update b spike in
      o1 ← one spike;
      c1 ← (if nearLayerTest (rand spike) o1
            then writeLayer (Some o1) (color spike) c else Some c);
      c2 ← (if farLayerTest (rand spike) o1
            then writeLayer (two spike) (color spike) c1 else Some c1);
      '(rest', c') ← particleLoop b rest c2;
      Some (spike :: rest', c')
  end.

(** [updateParticles]: the filled prefixes [subarray(0, posIdx)] and
    [subarray(0, colorIdx)] become the attributes of the geometry. *)
Definition updateParticles (st : HeartAnimation) : option HeartAnimation :=
  '(sp, c) ← particleLoop (beat st) (spikes st)
               (mkCursor 0 0 (positions st) (colors st));
  Some (set_particles
          (mkBufferGeometry (Some (take (posIdx c) (buf_positions c)))
                            (Some (take (colorIdx c) (buf_colors c))))
          sp (buf_positions c) (buf_colors c) st).

(** The loop [for (i = 0; i < len; i += 3)] of [updateHeartGeometry]; [fuel]
    bounds the number of iterations.  A read past the end of [originHeart]
    is [undefined], which no rational stands for: the loop returns [None]
    there, as it does when [originHeart] is [null]. *)
Fixpoint heartLoop (fuel : nat) (origin : option (list Q)) (sx : SimplexNoise)
    (b timeFactor : Q) (i : nat) (vs : list Q) {struct fuel}
    : option (list Q) :=
  if (i <? length vs)%nat then
    match fuel with
    | O => None
    | S fuel' =>
        o ← origin;
        x ← o !! i;
        y ← o !! (i + 1)%nat;
        z ← o !! (i + 2)%nat;
        let noise :=
          noise4D sx (x * NOISE_SCALE) (y * NOISE_SCALE) (z * NOISE_SCALE)
            timeFactor + 1 in
        let scale := noise * NOISE_SCALE_AMPLITUDE * b in
        heartLoop fuel' origin sx b timeFactor (i + 3)
          (<[(i + 2)%nat := z * scale]>
             (<[(i + 1)%nat := y * scale]>
                (<[i := x * scale]> vs)))
    end
  else Some vs.

(** [updateHeartGeometry(time)]. *)
Definition updateHeartGeometry (time : Q) (st : HeartAnimation)
    : option HeartAnimation :=
  vs ← heart st;
  vs' ← heartLoop (length vs) (originHeart st) (simplex st) (beat st)
          (time * 0.0005) 0 vs;
  Some (set_heart (Some vs') st).

(** [render(time)]; [hidden] is [document.hidden]. *)
Definition render (hidden : bool) (time : Q) (st : HeartAnimation)
    : option HeartAnimation :=
  if negb (isAnimating st) || negb (bool_decide (is_Some (heart st)))
  then Some st
  else if hidden then Some st
  else st1 ← updateParticles st; updateHeartGeometry time st1.

(** [onHeartLoaded(obj)], from the vertex buffer [vs] of the loaded and
    transformed mesh to the start of the animation. *)
Definition onHeartLoaded (vs : list Q) (draws : nat -> Draw)
    (st : HeartAnimation) : option HeartAnimation :=
  st1 ← setupSampler (set_heart (Some vs) st);
  Some (set_isAnimating true (initParticles draws st1)).

(** [Utils.showError(message, retryCallback)]. *)
Definition showError (message : string) (retryCallback : option Callback)
    (doc : Document) : Document :=
  match error_display doc, error_message doc with
  | Some _, Some _ =>
      mkDocument (Some false) (Some message)
        (match retryCallback, error_retry doc with
         | Some cb, Some _ => Some (mkRetryButton (Some cb) "block")
         | _, Some btn => Some (mkRetryButton (onclick btn) "none")
         | _, None => None
         end)
        (loading doc)
  | _, _ => doc
  end.

(** [onHeartError(error)]. *)
Definition onHeartError (doc : Document) : Document :=
  showError
    "Failed to load heart model. Please check your internet connection and refresh the page."
    (Some RetryLoadHeartModel) doc.

(** [Utils.hideError]. *)
Definition hideError (doc : Document) : Document :=
  match error_display doc with
  | Some _ =>
      mkDocument (Some true) (error_message doc) (error_retry doc)
        (loading doc)
  | None => doc
  end.

(** The listener of the window event [error]. *)
Definition onGlobalError (doc : Document) : Document :=
  showError "An unexpected error occurred. Please refresh the page."
    (Some ReloadPage) doc.

(** The listener of the window event [unhandledrejection]. *)
Definition onUnhandledRejection (doc : Document) : Document :=
  showError
    "An error occurred while loading resources. Please refresh the page."
    (Some ReloadPage) doc.

(** [Utils.updateLoadingProgress(percent)]. *)
Definition updateLoadingProgress (percent : Q) (ui : LoadingUI) : LoadingUI :=
  mkLoadingUI
    (match progress_bar ui with Some _ => Some percent | None => None end)
    (match loading_text ui with
     | Some _ => Some (Math_round percent)
     | None => None
     end).

(** [onHeartProgress(progress)], from [progress.loaded] and
    [progress.total].  With a total of 0 the quotient is no finite number:
    [None]. *)
Definition onHeartProgress (loaded total : Q) (ui : LoadingUI)
    : option LoadingUI :=
  if Qeq_bool total 0 then None
  else
    let percent := Math_round (loaded / total * 100) in
    Some (updateLoadingProgress (95 + inject_Z percent * 0.05) ui).

(** [showLoopStatus]: a notification that a timer removes. *)
Definition showLoopStatus (a : Audio) : list UiEffect :=
  [LoopStatus (audio_loop a); SetTimeout RemoveNotification 2000].

(** [toggleControlsVisibility]. *)
Definition toggleControlsVisibility (p : Page) : Page * list UiEffect :=
  match musicControls p with
  | Some mc =>
      if negb (mc_hidden mc)
      then (mkPage (app p) (camera_x p) (camera_y p) (audio p)
              (Some (mkMusicControls (mc_hidden mc) "0")),
            [SetTimeout HideMusicControls 300;
             AriaLive "Controls hidden" "polite"])
      else (mkPage (app p) (camera_x p) (camera_y p) (audio p)
              (Some (mkMusicControls false "0.8")),
            [AriaLive "Controls shown" "polite"])
  | None => (p, [])
  end.

Definition set_audio (a : Audio) (p : Page) : Page :=
  mkPage (app p) (camera_x p) (camera_y p) (Some a) (musicControls p).

(** [onKeyDown(event)], by [event.key]. *)
Definition onKeyDown (key : string) (p : Page) : Page * list UiEffect :=
  if String.eqb key "ArrowUp" then
    (mkPage (app p) (camera_x p) (camera_y p + 0.1) (audio p)
       (musicControls p), [])
  else if String.eqb key "ArrowDown" then
    (mkPage (app p) (camera_x p) (camera_y p - 0.1) (audio p)
       (musicControls p), [])
  else if String.eqb key "ArrowLeft" then
    (mkPage (app p) (camera_x p - 0.1) (camera_y p) (audio p)
       (musicControls p), [])
  else if String.eqb key "ArrowRight" then
    (mkPage (app p) (camera_x p + 0.1) (camera_y p) (audio p)
       (musicControls p), [])
  else if String.eqb key " " then
    let a := negb (isAnimating (app p)) in
    (mkPage (set_isAnimating a (app p)) (camera_x p) (camera_y p) (audio p)
       (musicControls p), [SetAnimationLoop a])
  else if String.eqb key "m" || String.eqb key "M" then
    match audio p with
    | Some a => (p, [if paused a then AudioPlay else AudioPause])
    | None => (p, [])
    end
  else if String.eqb key "r" || String.eqb key "R" then
    match audio p with
    | Some a =>
        (set_audio (mkAudio (paused a) (volume a) (audio_loop a) 0) p,
         [AudioPlay])
    | None => (p, [])
    end
  else if String.eqb key "+" || String.eqb key "=" then
    match audio p with
    | Some a =>
        if Qgtb 1.0 (volume a)
        then (set_audio
                (mkAudio (paused a) (Math_min 1.0 (volume a + 0.1))
                   (audio_loop a) (currentTime a)) p, [])
        else (p, [])
    | None => (p, [])
    end
  else if String.eqb key "-" then
    match audio p with
    | Some a =>
        if Qgtb (volume a) 0.0
        then (set_audio
                (mkAudio (paused a) (Math_max 0.0 (volume a - 0.1))
                   (audio_loop a) (currentTime a)) p, [])
        else (p, [])
    | None => (p, [])
    end
  else if String.eqb key "l" || String.eqb key "L" then
    match audio p with
    | Some a =>
        let a' :=
          mkAudio (paused a) (volume a) (negb (audio_loop a))
            (currentTime a) in
        (set_audio a' p, showLoopStatus a')
    | None => (p, [])
    end
  else if String.eqb key "h" || String.eqb key "H" then
    toggleControlsVisibility p
  else (p, []).

(** The state of the callback [animate]: the engine, [lastRenderTime] and
    the page of the error display. *)
Record Loop := mkLoop {
  loop_app : HeartAnimation;
  lastRenderTime : Q;
  loop_doc : Document
}.

(** How one call of [animate] ends: it returns for good because the
    animation is off, it skips the frame and asks for the next, it renders
    and asks for the next, or [render] throws, the error is shown with the
    reload action and no frame is asked for.  After a throw the engine is
    left as the failed frame left it, which a rational state does not
    record. *)
Inductive Outcome :=
| Ended (l : Loop)
| Skipped (l : Loop)
| Rendered (l : Loop)
| Failed (doc : Document).


(** The callback [animate(currentTime)]; [hidden] is [document.hidden]. *)
Definition animate (hidden : bool) (now : Q) (l : Loop) : Outcome :=
  if negb (isAnimating (loop_app l)) then Ended l
  else
    let deltaTime := now - lastRenderTime l in
    if Qgtb FRAME_SKIP_THRESHOLD deltaTime then Skipped l
    else
      match render hidden now (loop_app l) with
      | Some st => Rendered (mkLoop st now (loop_doc l))
      | None =>
          Failed
            (showError "Rendering error occurred. Please refresh the page."
               (Some ReloadPage) (loop_doc l))
      end.

(** The callbacks of a list of display refreshes, each with its
    [document.hidden] and its timestamp, as long as one is asked for: the
    timestamps at which [render] was called, and the state left when the
    last callback returned normally. *)
Fixpoint run_animate (frames : list (bool * Q)) (l : Loop)
    : list Q * option Loop :=
  match frames with
  | [] => ([], Some l)
  | (hidden, now) :: rest =>
      match animate hidden now l with
      | Ended l' => ([], Some l')
      | Skipped l' => run_animate rest l'
      | Rendered l' =>
          let '(ts, r) := run_animate rest l' in (now :: ts, r)
      | Failed _ => ([now], None)
      end
  end.

End Part001.

(** ** [src/unnamed/part_002] *)

Module Part002.

(** The constructor: two empty arrays. *)
Definition new_HeartAnimation (sx : SimplexNoise) (pal : list Color)
    : HeartAnimation :=
  mkHeartAnimation None None (mkBufferGeometry None None) [] [] []
    0 sx (mkVector3 0 0 0) pal false.

(** [SparkPoint.update(beat)], with [b] the value of [beat.a]. *)
Definition update (b : Q) (s : SparkPoint) : SparkPoint :=
  let noise :=
    noise4D (sp_simplex s)
      (vx (pos s) * 1) (vy (pos s) * 1) (vz (pos s) * 1) 0.1 + 1.5 in
  let noise2 :=
    noise4D (sp_simplex s)
      (vx (pos s) * NOISE_FREQUENCY)
      (vy (pos s) * NOISE_FREQUENCY)
      (vz (pos s) * NOISE_FREQUENCY) 1 + 1 in
  mkSparkPoint (color s) (rand s) (pos s)
    (Some (multiplyScalar (clone (pos s))
             (1.01 + noise * NOISE_AMPLITUDE * b)))
    (Some (multiplyScalar (clone (pos s))
             (1 + noise2 * (b + 0.3) - b * 1.2)))
    (sp_simplex s).

(** The condition of the first particle layer:
    [MAX_Z * RATE_Z + rand > one.z && one.z > -MAX_Z * RATE_Z - rand]. *)
Definition nearLayerTest (r : Q) (o1 : Vector3) : bool :=
  Qgtb (MAX_Z * RATE_Z + r) (vz o1) && Qgtb (vz o1) (- MAX_Z * RATE_Z - r).

(** The condition of the second particle layer:
    [MAX_Z * RATE_Z + rand * 2 > one.z && one.z > -MAX_Z * RATE_Z - rand * 2]. *)
Definition farLayerTest (r : Q) (o1 : Vector3) : bool :=
  Qgtb (MAX_Z * RATE_Z + r * 2) (vz o1)
  && Qgtb (vz o1) (- MAX_Z * RATE_Z - r * 2).

(** The body of one layer: [positions.push(v.x, v.y, v.z)] and
    [colors.push(color.r, color.g, color.b)]. *)
Definition pushLayer (v : option Vector3) (col : option Color)
    (ps cs : list Q) : option (list Q * list Q) :=
  p ← v;
  k ← col;
  Some (ps ++ xyz p, cs ++ rgb k).

(** The callback of [spikes.forEach], run over the array in order. *)
Fixpoint particleLoop (b : Q) (sp : list SparkPoint) (ps cs : list Q)
    : option (list SparkPoint * (list Q * list Q)) :=
  match sp with
  | [] => Some ([], (ps, cs))
  | spike :: rest =>
      let spike := update b spike in
      o1 ← one spike;
      '(ps1, cs1) ← (if nearLayerTest (rand spike) o1
                     then pushLayer (Some o1) (color spike) ps cs
                     else Some (ps, cs));
      '(ps2, cs2) ← (if farLayerTest (rand spike) o1
                     then pushLayer (two spike) (color spike) ps1 cs1
                     else Some (ps1, cs1));
      '(rest', out) ← particleLoop b rest ps2 cs2;
      Some (spike :: rest', out)
  end.

(** [updateParticles]: both arrays start empty, and copies of them
    ([new Float32Array(...)]) become the attributes of the geometry. *)
Definition updateParticles (st : HeartAnimation) : option HeartAnimation :=
  '(sp, (ps, cs)) ← particleLoop (beat st) (spikes st) [] [];
  Some (set_particles (mkBufferGeometry (Some ps) (Some cs)) sp ps cs st).

(** The loop [for (i = 0; i < vs.length; i += 3)] of [updateHeartGeometry];
    [fuel] bounds the number of iterations.  A read past the end of
    [originHeart] is [undefined], which no rational stands for: the loop
    returns [None] there, as it does when [originHeart] is [null]. *)
Fixpoint heartLoop (fuel : nat) (origin : option (list Q)) (sx : SimplexNoise)
    (b time : Q) (i : nat) (vs : list Q) {struct fuel}
    : option (list Q) :=
  if (i <? length vs)%nat then
    match fuel with
    | O => None
    | S fuel' =>
        o ← origin;
        x ← o !! i;
        y ← o !! (i + 1)%nat;
        z ← o !! (i + 2)%nat;
        let v := mkVector3 x y z in
        let noise :=
          noise4D sx (x * NOISE_SCALE) (y * NOISE_SCALE) (z * NOISE_SCALE)
            (time * 0.0005) + 1 in
        let v := multiplyScalar v (noise * NOISE_AMPLITUDE * b) in
        heartLoop fuel' origin sx b time (i + 3)
          (<[(i + 2)%nat := vz v]>
             (<[(i + 1)%nat := vy v]>
                (<[i := vx v]> vs)))
    end
  else Some vs.

(** [updateHeartGeometry(time)]. *)
Definition updateHeartGeometry (time : Q) (st : HeartAnimation)
    : option HeartAnimation :=
  vs ← heart st;
  vs' ← heartLoop (length vs) (originHeart st) (simplex st) (beat st)
          time 0 vs;
  Some (set_heart (Some vs') st).

(** [render(time)]. *)
Definition render (time : Q) (st : HeartAnimation) : option HeartAnimation :=
  if negb (isAnimating st) || negb (bool_decide (is_Some (heart st)))
  then Some st
  else st1 ← updateParticles st; updateHeartGeometry time st1.

(** [onHeartLoaded(obj)], from the vertex buffer [vs] of the loaded and
    transformed mesh to the start of the animation. *)
Definition onHeartLoaded (vs : list Q) (draws : nat -> Draw)
    (st : HeartAnimation) : option HeartAnimation :=
  st1 ← setupSampler (set_heart (Some vs) st);
  Some (set_isAnimating true (initParticles draws st1)).

(** The method [showError(message)]: the text replaces the content of
    [#loading]; no handler is installed. *)
Definition showError (message : string) (doc : Document) : Document :=
  match loading doc with
  | Some _ =>
      mkDocument (error_display doc) (error_message doc) (error_retry doc)
        (Some (ErrorText message "Please refresh the page to try again."))
  | None => doc
  end.

(** [onHeartError(error)]. *)
Definition onHeartError (doc : Document) : Document :=
  showError "Failed to load heart model" doc.

(** [onKeyDown(event)], by [event.key]. *)
Definition onKeyDown (key : string) (p : Page) : Page * list UiEffect :=
  if String.eqb key "ArrowUp" then
    (mkPage (app p) (camera_x p) (camera_y p + 0.1) (audio p)
       (musicControls p), [])
  else if String.eqb key "ArrowDown" then
    (mkPage (app p) (camera_x p) (camera_y p - 0.1) (audio p)
       (musicControls p), [])
  else if String.eqb key "ArrowLeft" then
    (mkPage (app p) (camera_x p - 0.1) (camera_y p) (audio p)
       (musicControls p), [])
  else if String.eqb key "ArrowRight" then
    (mkPage (app p) (camera_x p + 0.1) (camera_y p) (audio p)
       (musicControls p), [])
  else if String.eqb key " " then
    let a := negb (isAnimating (app p)) in
    (mkPage (set_isAnimating a (app p)) (camera_x p) (camera_y p) (audio p)
       (musicControls p), [SetAnimationLoop a])
  else (p, []).

End Part002.

(** ** [Utils.debounce] and [Utils.throttle] of [src/unnamed/part_001] *)

Module Utils.

Section Timers.

Context {A : Type}.

(** The closure of [debounce(func, wait)]: the variable [timeout], and the
    timers of the browser that this closure has set and that are still
    pending, each with its deadline and the arguments its callback [later]
    has captured.  [next_id] is the identifier the next [setTimeout]
    returns. *)
Record Debounced := mkDebounced {
  timeout : option nat;
  pending : gmap nat (Q * A);
  next_id : nat
}.

(** [debounce(func, wait)] before its first call. *)
Definition debounce : Debounced := mkDebounced None ∅ 0.

(** [clearTimeout(timeout)]; nothing happens for [undefined] or for a
    timer that is no longer pending. *)
Definition clearTimeout (id : option nat) (t : gmap nat (Q * A))
    : gmap nat (Q * A) :=
  match id with
  | Some i => delete i t
  | None => t
  end.

(** [executedFunction(...args)] called at the time [now]. *)
Definition executedFunction (wait now : Q) (args : A) (d : Debounced)
    : Debounced :=
  mkDebounced (Some (next_id d))
    (<[next_id d := (now + wait, args)]> (clearTimeout (timeout d) (pending d)))
    (S (next_id d)).

(** The browser runs the callback [later] of the timer [id] at the time
    [now], which it does only for a pending timer whose deadline has come:
    [later] clears [timeout] and calls [func] with the captured arguments,
    which are returned. *)
Definition later (now : Q) (id : nat) (d : Debounced)
    : option (A * Debounced) :=
  match pending d !! id with
  | Some (deadline, args) =>
      if Qle_bool deadline now
      then Some (args,
                 mkDebounced (timeout d)
                   (clearTimeout (timeout d) (delete id (pending d)))
                   (next_id d))
      else None
  | None => None
  end.

(** What happens to a debounced function: a call, or the expiry of a
    timer. *)
Inductive Event :=
| Call (now : Q) (args : A)
| Expire (now : Q) (id : nat).

(** The events of a trace, oldest first: the closure they leave and the
    calls of [func] they cause, each with its time. *)
Fixpoint run_debounced (wait : Q) (trace : list Event) (d : Debounced)
    : Debounced * list (Q * A) :=
  match trace with
  | [] => (d, [])
  | Call now args :: rest =>
      run_debounced wait rest (executedFunction wait now args d)
  | Expire now id :: rest =>
      match later now id d with
      | Some (args, d') =>
          let '(d'', log) := run_debounced wait rest d' in
          (d'', (now, args) :: log)
      | None => run_debounced wait rest d
      end
  end.

(** The most recent call of a trace. *)
Fixpoint last_call (trace : list Event) (found : option (Q * A))
    : option (Q * A) :=
  match trace with
  | [] => found
  | Call now args :: rest => last_call rest (Some (now, args))
  | Expire _ _ :: rest => last_call rest found
  end.

(** The closure of [throttle(func, limit)]: the variable [inThrottle] and
    the deadlines of the pending timers that reset it. *)
Record Throttled := mkThrottled {
  inThrottle : bool;
  resets : gmap nat Q;
  next_reset : nat
}.

(** [throttle(func, limit)] before its first call. *)
Definition throttle : Throttled := mkThrottled false ∅ 0.

(** The returned function called at the time [now]: whether [func] is
    called, and the closure afterwards. *)
Definition throttled (limit now : Q) (t : Throttled) : bool * Throttled :=
  if negb (inThrottle t)
  then (true,
        mkThrottled true (<[next_reset t := now + limit]> (resets t))
          (S (next_reset t)))
  else (false, t).

(** The browser runs the callback of the timer [id] at the time [now]:
    [inThrottle = false]. *)
Definition reset (now : Q) (id : nat) (t : Throttled) : option Throttled :=
  match resets t !! id with
  | Some deadline =>
      if Qle_bool deadline now
      then Some (mkThrottled false (delete id (resets t)) (next_reset t))
      else None
  | None => None
  end.

(** The events of a trace, oldest first: the closure they leave and the
    times at which [func] was called. *)
Fixpoint run_throttled (limit : Q) (trace : list Event) (t : Throttled)
    : Throttled * list Q :=
  match trace with
  | [] => (t, [])
  | Call now _ :: rest =>
      let '(called, t') := throttled limit now t in
      let '(t'', log) := run_throttled limit rest t' in
      (t'', if called then now :: log else log)
  | Expire now id :: rest =>
      match reset now id t with
      | Some t' => run_throttled limit rest t'
      | None => run_throttled limit rest t
      end
  end.

(** The time of an event, and a trace whose clock never runs backwards. *)
Definition event_time (e : Event) : Q :=
  match e with
  | Call now _ => now
  | Expire now _ => now
  end.

Fixpoint clock_ordered (from : Q) (trace : list Event) : Prop :=
  match trace with
  | [] => True
  | e :: rest => from <= event_time e /\ clock_ordered (event_time e) rest
  end.

End Timers.

End Utils.

(** ** [src/sw.js] *)

Module ServiceWorker.

Definition CACHE_NAME : string := "heart-animation-v1".

Definition urlsToCache : list string :=
  ["/"; "/index.html"; "/assets/css/style.css"; "/assets/js/three.min.js";
   "/assets/js/main.js"; "/assets/js/mesh-surface-sampler.js";
   "/assets/js/trackball-controls.js"; "/assets/js/simplex-noise.js";
   "/assets/js/obj-loader.js"; "/assets/js/gsap.min.js";
   "/assets/music/she-says.mp3"].

Section Caches.

(** The responses of the network and of the caches. *)
Context {R : Type}.

(** [caches]: the named caches in the order of their creation, each a map
    from the URL of a request to its stored response. *)
Definition CacheStorage := list (string * gmap string R).

(** [caches.open(name)] followed by the change [f] of the opened cache; a
    cache that does not exist is created empty. *)
Fixpoint with_cache (name : string) (f : gmap string R -> gmap string R)
    (cs : CacheStorage) : CacheStorage :=
  match cs with
  | [] => [(name, f ∅)]
  | (n, c) :: rest =>
      if decide (n = name) then (n, f c) :: rest
      else (n, c) :: with_cache name f rest
  end.

(** The fetches of [cache.addAll(urls)] over the network [net], where
    [None] is a request that fails: all of them succeed or the whole call
    fails. *)
Definition fetch_all (net : string -> option R) (urls : list string)
    : option (list (string * R)) :=
  mapM (fun u => r ← net u; Some (u, r)) urls.

(** The stores of [cache.addAll], in order. *)
Definition put_all (entries : list (string * R)) (c : gmap string R)
    : gmap string R :=
  foldl (fun c e => <[e.1 := e.2]> c) c entries.

(** The listener of [install]: the caches afterwards, and whether the
    promise given to [waitUntil] is fulfilled. *)
Definition install (net : string -> option R) (cs : CacheStorage)
    : CacheStorage * bool :=
  match fetch_all net urlsToCache with
  | Some entries => (with_cache CACHE_NAME (put_all entries) cs, true)
  | None => (with_cache CACHE_NAME id cs, false)
  end.

(** [caches.match(request)]: the first cache, in creation order, that
    holds the URL answers. *)
Fixpoint caches_match (url : string) (cs : CacheStorage) : option R :=
  match cs with
  | [] => None
  | (_, c) :: rest =>
      match c !! url with
      | Some r => Some r
      | None => caches_match url rest
      end
  end.

(** The listener of [fetch]: [response || fetch(event.request)]. *)
Definition onFetch (net : string -> option R) (url : string)
    (cs : CacheStorage) : option R :=
  match caches_match url cs with
  | Some r => Some r
  | None => net url
  end.

(** The listener of [activate]: every cache whose name is not [CACHE_NAME]
    is deleted. *)
Definition activate (cs : CacheStorage) : CacheStorage :=
  filter (fun nc => nc.1 = CACHE_NAME) cs.

End Caches.

End ServiceWorker.

(** ** The words of the specification *)

#[global] Instance Qlt_decision (a b : Q) : Decision (a < b) :=
  match Qlt_le_dec a b with
  | left H => left H
  | right H => right (Qle_not_lt _ _ H)
  end.

(** The depth window of layer [k] for a spark of jitter [j]: [z] lies
    strictly within plus or minus [MAX_Z * RATE_Z + k * j]. *)
Definition in_window (k j z : Q) : Prop :=
  - (MAX_Z * RATE_Z + k * j) < z /\ z < MAX_Z * RATE_Z + k * j.

#[global] Instance in_window_dec (k j z : Q) : Decision (in_window k j z) :=
  and_dec (Qlt_decision _ _) (Qlt_decision _ _).

(** An entry that is appended only when its layer is visible. *)
Definition layer {A} (visible : bool) (entry : list A) : list A :=
  if visible then entry else [].

(** What an updated spark contributes to a render buffer: its near entry
    when the z of [one] is in the window of layer 1, then its far entry when
    the z of [one] is in the window of layer 2. *)
Definition spec_layers {A} (s : SparkPoint) (near far : list A) : list A :=
  match one s with
  | Some o1 =>
      layer (bool_decide (in_window 1 (rand s) (vz o1))) near
      ++ layer (bool_decide (in_window 2 (rand s) (vz o1))) far
  | None => []
  end.

Definition spec_positions (s : SparkPoint) : list Q :=
  spec_layers s (from_option xyz [] (one s)) (from_option xyz [] (two s)).

Definition spec_colors (s : SparkPoint) : list Q :=
  spec_layers s (from_option rgb [] (color s)) (from_option rgb [] (color s)).

(** The first noise sample of a spark: [noise4D(p.x, p.y, p.z, 0.1) + 1.5]. *)
Definition spec_noise1 (sx : SimplexNoise) (p : Vector3) : Q :=
  noise4D sx (vx p) (vy p) (vz p) 0.1 + 1.5.

(** The second noise sample: [noise4D(p.x * F, p.y * F, p.z * F, 1) + 1]. *)
Definition spec_noise2 (sx : SimplexNoise) (p : Vector3) : Q :=
  noise4D sx (vx p * NOISE_FREQUENCY) (vy p * NOISE_FREQUENCY)
    (vz p * NOISE_FREQUENCY) 1 + 1.

(** The near factor of the specification, with the noise scale in it. *)
Definition spec_near_factor (sx : SimplexNoise) (p : Vector3) (b : Q) : Q :=
  1.01 + spec_noise1 sx p * NOISE_SCALE * NOISE_AMPLITUDE * b.

(** The near factor without the noise scale. *)
Definition plain_near_factor (sx : SimplexNoise) (p : Vector3) (b : Q) : Q :=
  1.01 + spec_noise1 sx p * NOISE_AMPLITUDE * b.

(** The far factor of the specification. *)
Definition spec_far_factor (sx : SimplexNoise) (p : Vector3) (b : Q) : Q :=
  1 + spec_noise2 sx p * (b + 0.3) - b * 1.2.

(** The mesh scale factor of the specification at an origin vertex:
    [(noise4D(x * S, y * S, z * S, t * k) + 1) * (S * A) * beat]. *)
Definition spec_scale (sx : SimplexNoise) (time b x y z : Q) : Q :=
  (noise4D sx (x * NOISE_SCALE) (y * NOISE_SCALE) (z * NOISE_SCALE)
     (time * 0.0005) + 1) * (NOISE_SCALE * NOISE_AMPLITUDE) * b.

(** The mesh scale factor without the noise scale:
    [(noise4D(x * S, y * S, z * S, t * k) + 1) * A * beat]. *)
Definition plain_scale (sx : SimplexNoise) (time b x y z : Q) : Q :=
  (noise4D sx (x * NOISE_SCALE) (y * NOISE_SCALE) (z * NOISE_SCALE)
     (time * 0.0005) + 1) * NOISE_AMPLITUDE * b.

(** Every vertex [(x, y, z)] of a flat origin buffer multiplied, component
    by component, by the one scalar [f x y z]. *)
Fixpoint scale_vertices (f : Q -> Q -> Q -> Q) (o : list Q) : list Q :=
  match o with
  | x :: y :: z :: rest =>
      x * f x y z :: y * f x y z :: z * f x y z :: scale_vertices f rest
  | _ => []
  end.

(** Component-wise equality of vectors as numbers. *)
Definition vec_eq (a b : Vector3) : Prop :=
  vx a == vx b /\ vy a == vy b /\ vz a == vz b.

(** ** Frames and runs *)

(** The tween writes [beat.a], then the displacement of the mesh runs, once
    for every pair (time, beat) of the history. *)
Fixpoint run_updates (step : Q -> HeartAnimation -> option HeartAnimation)
    (history : list (Q * Q)) (st : HeartAnimation) : option HeartAnimation :=
  match history with
  | [] => Some st
  | (time, b) :: rest =>
      st1 ← step time (set_beat b st);
      run_updates step rest st1
  end.

(** The mesh is loaded: the live buffer and its origin copy have the same
    length, a whole number of vertices. *)
Definition mesh_ready (st : HeartAnimation) : Prop :=
  exists vs o n,
    heart st = Some vs /\ originHeart st = Some o /\
    length vs = length o /\ length o = (3 * n)%nat.

(** Every spark has a colour. *)
Definition colored (sp : list SparkPoint) : Prop :=
  Forall (fun s => is_Some (color s)) sp.

(** The particle state of a running [part_001]: both typed arrays have their
    constructed size and there are at most [PARTICLE_COUNT] sparks. *)
Definition particles_ready001 (st : HeartAnimation) : Prop :=
  Z.of_nat (length (positions st)) = PARTICLE_COUNT_6 /\
  Z.of_nat (length (colors st)) = PARTICLE_COUNT_6 /\
  (Z.of_nat (length (spikes st)) <= PARTICLE_COUNT)%Z /\
  colored (spikes st).

(** The particle state of a running [part_002]. *)
Definition particles_ready002 (st : HeartAnimation) : Prop :=
  (Z.of_nat (length (spikes st)) <= PARTICLE_COUNT)%Z /\
  colored (spikes st).

(** The cursor [c'] continues [c]: the typed arrays keep their sizes and
    the filled prefixes have grown by [ps] and [cs]. *)
Definition extends (c c' : Part001.Cursor) (ps cs : list Q) : Prop :=
  Part001.posIdx c' = (Part001.posIdx c + length ps)%nat /\
  Part001.colorIdx c' = (Part001.colorIdx c + length cs)%nat /\
  length (Part001.buf_positions c') = length (Part001.buf_positions c) /\
  length (Part001.buf_colors c') = length (Part001.buf_colors c) /\
  take (Part001.posIdx c') (Part001.buf_positions c')
  = take (Part001.posIdx c) (Part001.buf_positions c) ++ ps /\
  take (Part001.colorIdx c') (Part001.buf_colors c')
  = take (Part001.colorIdx c) (Part001.buf_colors c) ++ cs.

(** [part_001] is running: the particles are built and the mesh is loaded. *)
Definition running001 (st : HeartAnimation) : Prop :=
  particles_ready001 st /\ mesh_ready st.

(** [part_002] is running. *)
Definition running002 (st : HeartAnimation) : Prop :=
  particles_ready002 st /\ mesh_ready st.

(** What a frame may change: the live vertex buffer, the submitted
    attributes, the render arrays, and the sparks up to their [birth]. *)
Definition frame_of (st st' : HeartAnimation) : Prop :=
  originHeart st' = originHeart st /\
  map birth (spikes st') = map birth (spikes st) /\
  beat st' = beat st /\ simplex st' = simplex st /\
  palette st' = palette st /\ shared_pos st' = shared_pos st /\
  isAnimating st' = isAnimating st.

(** Times that are each at least [gap] after the one before them, the
    first one after [last]. *)
Fixpoint spaced (gap last : Q) (ts : list Q) : Prop :=
  match ts with
  | [] => True
  | t :: rest => last + gap <= t /\ spaced gap t rest
  end.

(** The volume of a page that has an audio element is within [0, 1]. *)
Definition volume_in_range (p : Page) : Prop :=
  forall a, audio p = Some a -> 0 <= volume a /\ volume a <= 1.

(** A debounced closure after a history whose most recent call is [found]:
    no timer is pending, or exactly the timer of that call, which
    [timeout] names and which expires [wait] after it. *)
Definition debounced_ok {A} (wait : Q) (found : option (Q * A))
    (d : Utils.Debounced) : Prop :=
  Utils.pending d = ∅ \/
  exists id t0 a,
    Utils.timeout d = Some id /\
    Utils.pending d = {[id := (t0 + wait, a)]} /\
    found = Some (t0, a).

(** A throttled closure at the time [now] after a history in which [func]
    was last called at [last]: the flag is down, no timer is pending and
    [limit] has passed since that call; or the flag is up and exactly the
    timer of that call is pending. *)
Definition throttled_ok (limit now : Q) (last : option Q)
    (t : Utils.Throttled) : Prop :=
  (Utils.inThrottle t = false /\ Utils.resets t = ∅ /\
   forall l, last = Some l -> l + limit <= now) \/
  (Utils.inThrottle t = true /\
   exists id l, last = Some l /\ Utils.resets t = {[id := l + limit]}).

(** Times of calls that are [gap] apart, after a last call if there was
    one. *)
Definition spaced_after (gap : Q) (last : option Q) (ts : list Q) : Prop :=
  match last, ts with
  | Some l, _ => spaced gap l ts
  | None, [] => True
  | None, t :: rest => spaced gap t rest
  end.

(** A noise function that stays in the range documented for it. *)
Definition noise_bounded (sx : SimplexNoise) : Prop :=
  forall x y z w, -1 <= noise4D sx x y z w /\ noise4D sx x y z w <= 1.

(** A spark as its constructor leaves it, for a palette [pal]. *)
Definition newborn (pal : list Color) (s : SparkPoint) : Prop :=
  0 <= rand s /\ rand s < PARTICLE_RANDOM_FACTOR /\
  (exists c, color s = Some c /\ c ∈ pal) /\
  one s = None /\ two s = None.

(** ** Sample data *)

Definition flat_noise : SimplexNoise := mkSimplexNoise (fun _ _ _ _ => 0).

Definition sample_palette : list Color :=
  [mkColor 1 0.83 0.93; mkColor 1 0.47 0.99;
   mkColor 1 0.47 0.68; mkColor 1 0.09 0.46].

Definition sample_draws (i : nat) : Draw :=
  match i with
  | O => mkDraw (mkVector3 1 0 0) 0.1 0.5
  | 1%nat => mkDraw (mkVector3 0 1 0.1) 0.3 0.05
  | _ => mkDraw (mkVector3 0 0 1) 0.9 0.7
  end.

Definition sample_spark : SparkPoint :=
  SparkPoint_new (sample_draws 0) sample_palette flat_noise.

Definition sample_sparks : list SparkPoint :=
  map (fun i => SparkPoint_new (sample_draws i) sample_palette flat_noise)
      (seq 0 3).

Definition sample_mesh : list Q := [1; 0; 0; 0; 1; 0.1].

Definition sample001 : HeartAnimation :=
  mkHeartAnimation (Some sample_mesh) (Some sample_mesh)
    (mkBufferGeometry None None) sample_sparks
    (replicate (Z.to_nat PARTICLE_COUNT_6) 0)
    (replicate (Z.to_nat PARTICLE_COUNT_6) 0)
    0.5 flat_noise (mkVector3 0 0 1) sample_palette true.

Definition sample002 : HeartAnimation :=
  mkHeartAnimation (Some sample_mesh) (Some sample_mesh)
    (mkBufferGeometry None None) sample_sparks [] []
    0.5 flat_noise (mkVector3 0 0 1) sample_palette true.

Definition sample_document : Document :=
  mkDocument (Some true) (Some EmptyString)
    (Some (mkRetryButton None "none")) (Some LoadingBar).

(** A spark at the origin of [sample_spark], with another jitter, no colour
    and a stale near position. *)
Definition sample_twin : SparkPoint :=
  mkSparkPoint None 0.02 (mkVector3 1 0 0) (Some (mkVector3 9 9 9)) None
    flat_noise.

Definition sample_history : list (Q * Q) := [(16, 0.2); (32, 0.5); (48, 0)].

(** The state [sample002] after the frames of [sample_history]. *)
Definition sample_after001 : HeartAnimation :=
  default sample002
    (run_updates (fun time => Part001.render false time) sample_history
       sample002).

Definition sample_after002 : HeartAnimation :=
  default sample002 (run_updates Part002.render sample_history sample002).

(** [sample001] with typed arrays that earlier frames have filled. *)
Definition sample001_used : HeartAnimation :=
  mkHeartAnimation (Some sample_mesh) (Some sample_mesh)
    (mkBufferGeometry None None) sample_sparks
    (replicate (Z.to_nat PARTICLE_COUNT_6) 7)
    (replicate (Z.to_nat PARTICLE_COUNT_6) 0.5)
    0.5 flat_noise (mkVector3 0 0 1) sample_palette true.

(** The samples after one frame of the particle layer, and after one whole
    frame. *)
Definition sample_frame001 : HeartAnimation :=
  default sample001 (Part001.updateParticles sample001).

Definition sample_frame002 : HeartAnimation :=
  default sample002 (Part002.updateParticles sample002).

Definition sample_render001 : HeartAnimation :=
  default sample001 (Part001.render false 1000 sample001).

Definition sample_render002 : HeartAnimation :=
  default sample002 (Part002.render 1000 sample002).

(** One frame of [part_001] on arrays that have no room at all. *)
Definition sample_overfull : HeartAnimation :=
  default sample002 (Part001.updateParticles sample002).

Definition sample_ui : LoadingUI := mkLoadingUI (Some 0) (Some 0%Z).

Definition sample_page : Page :=
  mkPage sample002 0 0 (Some (mkAudio true AUDIO_VOLUME true 0))
    (Some (mkMusicControls false "0.8")).

Definition sample_keys : list string :=
  ["+"; "="; "+"; "+"; "l"; "-"; " "; "m"; "ArrowUp"; "h"].

Definition sample_audio_after : Audio :=
  default (mkAudio true 0 false 0)
    (audio (foldl (fun q key => (Part001.onKeyDown key q).1) sample_page
              sample_keys)).



Definition sample_trace : list (Utils.Event (A := string)) :=
  [Utils.Call 0 "a"; Utils.Call 40 "b"; Utils.Expire 50 0;
   Utils.Call 60 "c"].

(** The call of [func] when the timer 2 expires at 170 after
    [sample_trace], with a wait of 100. *)
Definition sample_fired : string * Utils.Debounced :=
  default (EmptyString, Utils.debounce)
    (Utils.later 170 2
       (Utils.run_debounced 100 sample_trace Utils.debounce).1).

Definition sample_throttle_trace : list (Utils.Event (A := string)) :=
  [Utils.Call 0 "a"; Utils.Call 40 "b"; Utils.Expire 100 0;
   Utils.Call 110 "c"; Utils.Call 120 "d"].

(** A network that answers every URL with its own text, and caches left
    by an older worker. *)
Definition sample_net : string -> option string := fun u => Some u.

Definition sample_caches : ServiceWorker.CacheStorage :=
  [("heart-animation-v0"%string, {["/index.html"%string := "stale"%string]})].

(** * Properties *)

(** ** Numbers and vectors *)

(** [a > b] of the source is the strict order of the rationals. *)
Lemma Qgtb_true (a b : Q) : Qgtb a b = true <-> b < a.
Proof.
  unfold Qgtb. rewrite Qgt_alt.
  destruct (a ?= b); intuition congruence.
Qed.

(** Multiplying by 1 returns the very same fraction. *)
Lemma Qmult_1_r_eq (q : Q) : q * 1 = q.
Proof.
  destruct q as [n d]. unfold Qmult. simpl.
  by rewrite Z.mul_1_r, Pos.mul_1_r.
Qed.

Lemma clone_eq (v : Vector3) : clone v = v.
Proof. by destruct v. Qed.

(** ** The displacement of the mesh *)

(** Reading and writing one vertex at the loop index, the buffer being split
    there. *)
Lemma lookup3 (pre : list Q) (x y z : Q) (rest : list Q) (n : nat) :
  n = length pre ->
  (pre ++ x :: y :: z :: rest) !! n = Some x /\
  (pre ++ x :: y :: z :: rest) !! (n + 1)%nat = Some y /\
  (pre ++ x :: y :: z :: rest) !! (n + 2)%nat = Some z.
Proof.
  intros ->. repeat split.
  - rewrite lookup_app_r by lia. by rewrite Nat.sub_diag.
  - rewrite lookup_app_r by lia.
    by replace (length pre + 1 - length pre)%nat with 1%nat by lia.
  - rewrite lookup_app_r by lia.
    by replace (length pre + 2 - length pre)%nat with 2%nat by lia.
Qed.

Lemma insert3 (pre : list Q) (a b c x y z : Q) (rest : list Q) (n : nat) :
  n = length pre ->
  <[(n + 2)%nat := z]> (<[(n + 1)%nat := y]> (<[n := x]>
     (pre ++ a :: b :: c :: rest))) = pre ++ x :: y :: z :: rest.
Proof.
  intros ->.
  rewrite !insert_app_r_alt by lia.
  rewrite Nat.sub_diag.
  replace (length pre + 1 - length pre)%nat with 1%nat by lia.
  by replace (length pre + 2 - length pre)%nat with 2%nat by lia.
Qed.

(** One turn of either mesh loop on a buffer split at the loop index. *)
Ltac heart_loop_step IH f x y z Hpre :=
  match goal with
  | |- context [Some (?opre ++ x :: y :: z :: ?orest)] =>
      destruct (lookup3 opre x y z orest _ (eq_sym Hpre)) as (Hx & Hy & Hz);
      cbn [mbind option_bind]; rewrite Hx; cbn [mbind option_bind];
      rewrite Hy; cbn [mbind option_bind]; rewrite Hz;
      cbn [mbind option_bind multiplyScalar vx vy vz];
      rewrite insert3 by reflexivity;
      change (opre ++ x :: y :: z :: orest)
        with (opre ++ [x; y; z] ++ orest);
      clear Hx Hy Hz
  end;
  match goal with
  | |- context [?pre ++ ?u :: ?v :: ?w :: ?vrest] =>
      replace (length pre + 3)%nat with (length (pre ++ [u; v; w]))
        by (rewrite length_app; simpl; lia);
      change (pre ++ u :: v :: w :: vrest) with (pre ++ [u; v; w] ++ vrest)
  end;
  rewrite !(assoc_L (++));
  rewrite IH; [| rewrite !length_app; simpl; lia | lia | lia | lia];
  by rewrite <- (assoc_L (++)).

(** Started at a vertex boundary with enough fuel, the loop of [part_001]
    rewrites the rest of the buffer into the scaled origin vertices. *)
Lemma heartLoop001_spec (sx : SimplexNoise) (b time : Q) (n : nat) :
  forall (fuel : nat) (opre orest pre vrest : list Q),
    length opre = length pre ->
    length vrest = length orest ->
    length orest = (3 * n)%nat ->
    (length orest <= fuel)%nat ->
    Part001.heartLoop fuel (Some (opre ++ orest)) sx b (time * 0.0005)
      (length pre) (pre ++ vrest)
    = Some (pre ++ scale_vertices (spec_scale sx time b) orest).
Proof.
  induction n as [|n IH]; intros fuel opre orest pre vrest Hpre Hlen Hn Hfuel.
  - destruct orest; [|discriminate]. destruct vrest; [|discriminate].
    destruct fuel; simpl; rewrite app_nil_r;
      by rewrite (proj2 (Nat.ltb_ge _ _)) by lia.
  - destruct orest as [|x [|y [|z orest]]]; try (simpl in Hn; lia).
    destruct vrest as [|a [|c [|d vrest]]]; try (simpl in Hlen; lia).
    destruct fuel as [|fuel]; [simpl in Hfuel; lia|].
    simpl in Hn, Hlen, Hfuel.
    cbn [Part001.heartLoop].
    rewrite (proj2 (Nat.ltb_lt _ _)) by (rewrite length_app; simpl; lia).
    heart_loop_step IH (spec_scale sx time b) x y z Hpre.
Qed.

(** The same for the loop of [part_002], with its own scalar. *)
Lemma heartLoop002_spec (sx : SimplexNoise) (b time : Q) (n : nat) :
  forall (fuel : nat) (opre orest pre vrest : list Q),
    length opre = length pre ->
    length vrest = length orest ->
    length orest = (3 * n)%nat ->
    (length orest <= fuel)%nat ->
    Part002.heartLoop fuel (Some (opre ++ orest)) sx b time
      (length pre) (pre ++ vrest)
    = Some (pre ++ scale_vertices (plain_scale sx time b) orest).
Proof.
  induction n as [|n IH]; intros fuel opre orest pre vrest Hpre Hlen Hn Hfuel.
  - destruct orest; [|discriminate]. destruct vrest; [|discriminate].
    destruct fuel; simpl; rewrite app_nil_r;
      by rewrite (proj2 (Nat.ltb_ge _ _)) by lia.
  - destruct orest as [|x [|y [|z orest]]]; try (simpl in Hn; lia).
    destruct vrest as [|a [|c [|d vrest]]]; try (simpl in Hlen; lia).
    destruct fuel as [|fuel]; [simpl in Hfuel; lia|].
    simpl in Hn, Hlen, Hfuel.
    cbn [Part002.heartLoop].
    rewrite (proj2 (Nat.ltb_lt _ _)) by (rewrite length_app; simpl; lia).
    heart_loop_step IH (plain_scale sx time b) x y z Hpre.
Qed.

Lemma updateHeartGeometry001_eq (st : HeartAnimation) (vs o : list Q)
    (n : nat) (time : Q) :
  heart st = Some vs -> originHeart st = Some o ->
  length vs = length o -> length o = (3 * n)%nat ->
  Part001.updateHeartGeometry time st
  = Some (set_heart
            (Some (scale_vertices (spec_scale (simplex st) time (beat st)) o))
            st).
Proof.
  intros Hvs Ho Hlen Hn. unfold Part001.updateHeartGeometry.
  rewrite Hvs, Ho. cbn [mbind option_bind].
  pose proof (heartLoop001_spec (simplex st) (beat st) time n (length vs)
                [] o [] vs eq_refl Hlen Hn) as Hloop.
  simpl in Hloop. rewrite Hloop by lia. done.
Qed.

Lemma updateHeartGeometry002_eq (st : HeartAnimation) (vs o : list Q)
    (n : nat) (time : Q) :
  heart st = Some vs -> originHeart st = Some o ->
  length vs = length o -> length o = (3 * n)%nat ->
  Part002.updateHeartGeometry time st
  = Some (set_heart
            (Some (scale_vertices (plain_scale (simplex st) time (beat st)) o))
            st).
Proof.
  intros Hvs Ho Hlen Hn. unfold Part002.updateHeartGeometry.
  rewrite Hvs, Ho. cbn [mbind option_bind].
  pose proof (heartLoop002_spec (simplex st) (beat st) time n (length vs)
                [] o [] vs eq_refl Hlen Hn) as Hloop.
  simpl in Hloop. rewrite Hloop by lia. done.
Qed.

Lemma scale_vertices_length (f : Q -> Q -> Q -> Q) (n : nat) :
  forall o : list Q,
    length o = (3 * n)%nat -> length (scale_vertices f o) = length o.
Proof.
  induction n as [|n IH]; intros o Hn.
  - by destruct o.
  - destruct o as [|x [|y [|z o]]]; try (simpl in Hn; lia).
    simpl. rewrite IH; [done | simpl in Hn; lia].
Qed.

Lemma scale_vertices_zero (f : Q -> Q -> Q -> Q) :
  (forall x y z, f x y z == 0) ->
  forall (n : nat) (o : list Q),
    (length o <= n)%nat -> Forall (fun q => q == 0) (scale_vertices f o).
Proof.
  intros Hf. induction n as [|n IH]; intros o Hn.
  - destruct o; [constructor | simpl in Hn; lia].
  - destruct o as [|x [|y [|z o]]]; [constructor ..|].
    cbn [scale_vertices].
    do 3 (constructor; [rewrite Hf; ring |]).
    apply IH. simpl in Hn. lia.
Qed.

Lemma spec_scale_zero (sx : SimplexNoise) (time x y z : Q) :
  spec_scale sx time 0 x y z == 0.
Proof. unfold spec_scale. ring. Qed.

Lemma plain_scale_zero (sx : SimplexNoise) (time x y z : Q) :
  plain_scale sx time 0 x y z == 0.
Proof. unfold plain_scale. ring. Qed.

(** A loaded mesh stays loaded through a displacement, which leaves the
    origin copy alone and writes the scaled vertices. *)
Lemma mesh_ready_step (step : Q -> HeartAnimation -> option HeartAnimation)
    (f : SimplexNoise -> Q -> Q -> Q -> Q -> Q -> Q) :
  (forall st vs o n time,
      heart st = Some vs -> originHeart st = Some o ->
      length vs = length o -> length o = (3 * n)%nat ->
      step time st
      = Some (set_heart
                (Some (scale_vertices (f (simplex st) time (beat st)) o)) st)) ->
  forall st time,
    mesh_ready st ->
    exists o,
      originHeart st = Some o /\
      step time st
      = Some (set_heart
                (Some (scale_vertices (f (simplex st) time (beat st)) o)) st) /\
      length (scale_vertices (f (simplex st) time (beat st)) o) = length o /\
      mesh_ready
        (set_heart
           (Some (scale_vertices (f (simplex st) time (beat st)) o)) st).
Proof.
  intros Hstep st time (vs & o & n & Hvs & Ho & Hlen & Hn).
  pose proof (scale_vertices_length (f (simplex st) time (beat st)) n o Hn)
    as Hl.
  exists o. split; [done|]. split; [by apply (Hstep st vs o n time)|].
  split; [done|].
  exists (scale_vertices (f (simplex st) time (beat st)) o), o, n.
  by repeat split.
Qed.

Lemma run_updates_ready (step : Q -> HeartAnimation -> option HeartAnimation) :
  (forall st time b,
      mesh_ready st ->
      exists st', step time (set_beat b st) = Some st' /\ mesh_ready st' /\
                  originHeart st' = originHeart st) ->
  forall history st,
    mesh_ready st ->
    exists st', run_updates step history st = Some st' /\ mesh_ready st' /\
                originHeart st' = originHeart st.
Proof.
  intros Hstep history.
  induction history as [|[time b] history IH]; intros st Hst.
  - by exists st.
  - destruct (Hstep st time b Hst) as (st1 & Hrun & Hst1 & Ho1).
    destruct (IH st1 Hst1) as (st2 & Hrun2 & Hst2 & Ho2).
    exists st2. cbn [run_updates]. rewrite Hrun. cbn [mbind option_bind].
    repeat split; try done. congruence.
Qed.

Lemma zero_beat_resets (step : Q -> HeartAnimation -> option HeartAnimation)
    (f : SimplexNoise -> Q -> Q -> Q -> Q -> Q -> Q) :
  (forall st vs o n time,
      heart st = Some vs -> originHeart st = Some o ->
      length vs = length o -> length o = (3 * n)%nat ->
      step time st
      = Some (set_heart
                (Some (scale_vertices (f (simplex st) time (beat st)) o)) st)) ->
  (forall sx time x y z, f sx time 0 x y z == 0) ->
  forall st history time,
    mesh_ready st ->
    exists st1 st2 vs o,
      run_updates step history st = Some st1 /\
      step time (set_beat 0 st1) = Some st2 /\
      originHeart st = Some o /\ originHeart st2 = Some o /\
      heart st2 = Some vs /\ length vs = length o /\
      Forall (fun q => q == 0) vs.
Proof.
  intros Hstep Hzero st history time Hst.
  destruct (run_updates_ready step) with (history := history) (st := st)
    as (st1 & Hrun & Hst1 & Ho1); [|done|].
  { intros s t b Hs.
    destruct (mesh_ready_step step f Hstep (set_beat b s) t Hs)
      as (o & H1 & H2 & _ & H4).
    eexists. split; [exact H2|]. by split. }
  destruct (mesh_ready_step step f Hstep (set_beat 0 st1) time Hst1)
    as (o & H1 & H2 & H3 & H4).
  exists st1. eexists. exists (scale_vertices (f (simplex st1) time 0) o), o.
  split; [done|]. split; [exact H2|].
  change (originHeart (set_beat 0 st1)) with (originHeart st1) in H1.
  split; [congruence|]. split; [exact H1|]. split; [done|]. split; [exact H3|].
  apply (scale_vertices_zero _ (Hzero _ _) (length o) o (le_n _)).
Qed.

(** ** The depth windows *)

Lemma bool_decide_intro (b : bool) (P : Prop) `{Decision P} :
  (b = true <-> P) -> b = bool_decide P.
Proof.
  intros Hb. destruct b; case_bool_decide; intuition congruence.
Qed.

(** The four conditions of the source are the windows of the
    specification. *)
Lemma nearLayerTest001_window (r : Q) (o1 : Vector3) :
  Part001.nearLayerTest r o1 = true <-> in_window 1 r (vz o1).
Proof.
  unfold Part001.nearLayerTest, in_window, MAX_Z_RATE_Z, MAX_Z, RATE_Z.
  rewrite andb_true_iff, !Qgtb_true. split; intros [H1 H2]; split; lra.
Qed.

Lemma farLayerTest001_window (r : Q) (o1 : Vector3) :
  Part001.farLayerTest r o1 = true <-> in_window 2 r (vz o1).
Proof.
  unfold Part001.farLayerTest, in_window, MAX_Z_RATE_Z, MAX_Z, RATE_Z.
  rewrite andb_true_iff, !Qgtb_true. split; intros [H1 H2]; split; lra.
Qed.

Lemma nearLayerTest002_window (r : Q) (o1 : Vector3) :
  Part002.nearLayerTest r o1 = true <-> in_window 1 r (vz o1).
Proof.
  unfold Part002.nearLayerTest, in_window, MAX_Z, RATE_Z.
  rewrite andb_true_iff, !Qgtb_true. split; intros [H1 H2]; split; lra.
Qed.

Lemma farLayerTest002_window (r : Q) (o1 : Vector3) :
  Part002.farLayerTest r o1 = true <-> in_window 2 r (vz o1).
Proof.
  unfold Part002.farLayerTest, in_window, MAX_Z, RATE_Z.
  rewrite andb_true_iff, !Qgtb_true. split; intros [H1 H2]; split; lra.
Qed.

Lemma in_window_mono (k j1 j2 z : Q) :
  0 <= k -> j1 <= j2 -> in_window k j1 z -> in_window k j2 z.
Proof.
  unfold in_window. intros Hk Hj [H1 H2].
  assert (k * j1 <= k * j2) by nra.
  split; lra.
Qed.

(** ** The render buffers *)

Lemma update001_fields (b : Q) (s : SparkPoint) :
  birth (Part001.update b s) = birth s /\
  sp_simplex (Part001.update b s) = sp_simplex s /\
  is_Some (one (Part001.update b s)) /\ is_Some (two (Part001.update b s)).
Proof. repeat split; eauto. Qed.

Lemma update002_fields (b : Q) (s : SparkPoint) :
  birth (Part002.update b s) = birth s /\
  sp_simplex (Part002.update b s) = sp_simplex s /\
  is_Some (one (Part002.update b s)) /\ is_Some (two (Part002.update b s)).
Proof. repeat split; eauto. Qed.

Lemma extends_refl (c : Part001.Cursor) : extends c c [] [].
Proof.
  unfold extends. simpl. rewrite !Nat.add_0_r, !app_nil_r. done.
Qed.

Lemma extends_trans (c c1 c2 : Part001.Cursor) (ps1 cs1 ps2 cs2 : list Q) :
  extends c c1 ps1 cs1 -> extends c1 c2 ps2 cs2 ->
  extends c c2 (ps1 ++ ps2) (cs1 ++ cs2).
Proof.
  intros (Hp & Hc & Hlp & Hlc & Htp & Htc) (Hp' & Hc' & Hlp' & Hlc' & Htp' & Htc').
  unfold extends. rewrite !length_app, Htp', Htc', Htp, Htc, !(assoc_L (++)).
  repeat split; try congruence; lia.
Qed.

(** Three stores at the end of the filled prefix extend it by the three
    numbers, when they fit in the typed array. *)
Lemma take_write3 (l : list Q) (i : nat) (x y z : Q) :
  (i + 3 <= length l)%nat ->
  take (i + 3)
    (<[(i + 2)%nat := z]> (<[(i + 1)%nat := y]> (<[i := x]> l)))
  = take i l ++ [x; y; z].
Proof.
  intros Hi.
  rewrite <- (take_drop i l) at 1.
  assert (Hd : length (drop i l) = (length l - i)%nat) by apply length_drop.
  destruct (drop i l) as [|a [|b [|c rest]]]; try (simpl in Hd; lia).
  assert (Hn : i = length (take i l)) by (rewrite length_take; lia).
  rewrite (insert3 (take i l) a b c x y z rest i Hn).
  rewrite Hn at 1.
  change (take i l ++ x :: y :: z :: rest)
    with (take i l ++ [x; y; z] ++ rest).
  rewrite (assoc_L (++)).
  rewrite take_app_length'; [done|].
  rewrite length_app. simpl. lia.
Qed.

Lemma writeLayer_extends (v : Vector3) (k : Color) (c : Part001.Cursor) :
  (Part001.posIdx c + 3 <= length (Part001.buf_positions c))%nat ->
  (Part001.colorIdx c + 3 <= length (Part001.buf_colors c))%nat ->
  exists c', Part001.writeLayer (Some v) (Some k) c = Some c' /\
             extends c c' (xyz v) (rgb k).
Proof.
  intros Hp Hc. eexists. split; [reflexivity|].
  unfold extends. cbn [Part001.posIdx Part001.colorIdx
                       Part001.buf_positions Part001.buf_colors].
  rewrite !length_insert, !take_write3 by done. done.
Qed.

(** Each layer appends three numbers, so a spark contributes 0, 3 or 6
    numbers, and as many colour components as coordinates. *)
Lemma spec_layers_length (s : SparkPoint) :
  is_Some (one s) -> is_Some (two s) -> is_Some (color s) ->
  exists k : nat,
    (k <= 2)%nat /\
    length (spec_positions s) = (3 * k)%nat /\
    length (spec_colors s) = (3 * k)%nat.
Proof.
  intros [o1 H1] [o2 H2] [c Hc].
  unfold spec_positions, spec_colors, spec_layers. rewrite H1, H2, Hc.
  do 2 case_bool_decide; simpl;
    [exists 2%nat | exists 1%nat | exists 1%nat | exists 0%nat];
    repeat split; simpl; lia.
Qed.

Lemma flat_map_layers_length (sp : list SparkPoint) :
  Forall (fun s => is_Some (one s) /\ is_Some (two s) /\ is_Some (color s)) sp ->
  exists k : nat,
    (k <= 2 * length sp)%nat /\
    length (flat_map spec_positions sp) = (3 * k)%nat /\
    length (flat_map spec_colors sp) = (3 * k)%nat.
Proof.
  induction 1 as [|s sp (H1 & H2 & Hc) _ (k & Hk & Hp & Hq)].
  - by exists 0%nat.
  - destruct (spec_layers_length s H1 H2 Hc) as (k1 & Hk1 & Hp1 & Hq1).
    exists (k1 + k)%nat. simpl. rewrite !length_app. lia.
Qed.

Lemma colored_update001 (b : Q) (sp : list SparkPoint) :
  colored sp ->
  Forall (fun s => is_Some (one s) /\ is_Some (two s) /\ is_Some (color s))
         (map (Part001.update b) sp).
Proof.
  intros H. apply Forall_map. eapply Forall_impl; [exact H|].
  intros s Hs. simpl. eauto.
Qed.

Lemma colored_update002 (b : Q) (sp : list SparkPoint) :
  colored sp ->
  Forall (fun s => is_Some (one s) /\ is_Some (two s) /\ is_Some (color s))
         (map (Part002.update b) sp).
Proof.
  intros H. apply Forall_map. eapply Forall_impl; [exact H|].
  intros s Hs. simpl. eauto.
Qed.

(** The loop of [part_002] appends the visible layers of the updated sparks,
    in order. *)
Lemma particleLoop002_spec (b : Q) (sp : list SparkPoint) :
  colored sp ->
  forall ps cs : list Q,
    Part002.particleLoop b sp ps cs
    = Some (map (Part002.update b) sp,
            (ps ++ flat_map spec_positions (map (Part002.update b) sp),
             cs ++ flat_map spec_colors (map (Part002.update b) sp))).
Proof.
  induction 1 as [|s sp [k Hk] _ IH]; intros ps cs.
  - simpl. by rewrite !app_nil_r.
  - cbn [Part002.particleLoop map flat_map].
    set (s' := Part002.update b s).
    assert (Hs' : exists o1 o2, one s' = Some o1 /\ two s' = Some o2 /\
                                color s' = Some k).
    { subst s'. do 2 eexists. repeat split; [reflexivity .. | exact Hk]. }
    destruct Hs' as (o1 & o2 & H1 & H2 & Hc).
    unfold spec_positions, spec_colors, spec_layers.
    rewrite H1, H2, Hc. cbn [mbind option_bind from_option].
    rewrite (bool_decide_intro _ _ (nearLayerTest002_window (rand s') o1)).
    rewrite (bool_decide_intro _ _ (farLayerTest002_window (rand s') o1)).
    do 2 case_bool_decide; cbn [Part002.pushLayer mbind option_bind layer];
      rewrite IH; rewrite ?app_nil_r, <- ?(assoc_L (++)); done.
Qed.

(** The loop of [part_001] fills the same numbers behind its cursor, as long
    as six numbers per spark fit in the typed arrays. *)
Lemma particleLoop001_spec (b : Q) (sp : list SparkPoint) :
  colored sp ->
  forall c : Part001.Cursor,
    (Part001.posIdx c + 6 * length sp
     <= length (Part001.buf_positions c))%nat ->
    (Part001.colorIdx c + 6 * length sp
     <= length (Part001.buf_colors c))%nat ->
    exists c',
      Part001.particleLoop b sp c = Some (map (Part001.update b) sp, c') /\
      extends c c' (flat_map spec_positions (map (Part001.update b) sp))
                   (flat_map spec_colors (map (Part001.update b) sp)).
Proof.
  induction 1 as [|s sp [k Hk] _ IH]; intros c Hcp Hcc.
  - exists c. split; [done | apply extends_refl].
  - cbn [Part001.particleLoop map flat_map].
    set (s' := Part001.update b s).
    assert (Hs' : exists o1 o2, one s' = Some o1 /\ two s' = Some o2 /\
                                color s' = Some k).
    { subst s'. do 2 eexists. repeat split; [reflexivity .. | exact Hk]. }
    destruct Hs' as (o1 & o2 & H1 & H2 & Hc).
    unfold spec_positions, spec_colors, spec_layers.
    rewrite H1, H2, Hc. cbn [mbind option_bind from_option].
    rewrite (bool_decide_intro _ _ (nearLayerTest001_window (rand s') o1)).
    rewrite (bool_decide_intro _ _ (farLayerTest001_window (rand s') o1)).
    set (b1 := bool_decide (in_window 1 (rand s') (vz o1))).
    set (b2 := bool_decide (in_window 2 (rand s') (vz o1))).
    clearbody b1 b2. cbn [length] in Hcp, Hcc.
    assert (Hc1 : exists c1,
      (if b1 then Part001.writeLayer (Some o1) (Some k) c else Some c)
      = Some c1 /\
      extends c c1 (layer b1 (xyz o1)) (layer b1 (rgb k))).
    { destruct b1.
      - apply writeLayer_extends; lia.
      - exists c. split; [done | apply extends_refl]. }
    destruct Hc1 as (c1 & -> & E1). cbn [mbind option_bind].
    assert (Hc2 : exists c2,
      (if b2 then Part001.writeLayer (Some o2) (Some k) c1 else Some c1)
      = Some c2 /\
      extends c1 c2 (layer b2 (xyz o2)) (layer b2 (rgb k))).
    { destruct E1 as (Ep & Ec & Elp & Elc & _).
      destruct b2.
      - apply writeLayer_extends; destruct b1; simpl in Ep, Ec; lia.
      - exists c1. split; [done | apply extends_refl]. }
    destruct Hc2 as (c2 & -> & E2). cbn [mbind option_bind].
    pose proof (extends_trans _ _ _ _ _ _ _ E1 E2) as E12.
    destruct (IH c2) as (c' & -> & E').
    { destruct E12 as (Ep & Ec & Elp & Elc & _).
      rewrite Ep, Elp, length_app. destruct b1, b2; simpl; lia. }
    { destruct E12 as (Ep & Ec & Elp & Elc & _).
      rewrite Ec, Elc, length_app. destruct b1, b2; simpl; lia. }
    exists c'. split; [done|].
    apply (extends_trans _ _ _ _ _ _ _ E12 E').
Qed.

Lemma birth_update001 (b : Q) (sp : list SparkPoint) :
  map birth (map (Part001.update b) sp) = map birth sp.
Proof. rewrite map_map. by apply map_ext. Qed.

Lemma birth_update002 (b : Q) (sp : list SparkPoint) :
  map birth (map (Part002.update b) sp) = map birth sp.
Proof. rewrite map_map. by apply map_ext. Qed.

Lemma colored_birth (sp sp' : list SparkPoint) :
  map birth sp' = map birth sp -> colored sp -> colored sp'.
Proof.
  revert sp'. induction sp as [|s sp IH]; intros [|s' sp'] Hb Hc;
    try discriminate; [constructor|].
  cbn [map] in Hb. unfold birth at 1 3 in Hb.
  inversion Hb as [[Hcol Hrand Hpos Hsp]].
  apply Forall_cons in Hc as [Hs1 Hc]. constructor; [|by apply IH].
  by rewrite Hcol.
Qed.

(** A frame of [part_001] on a running particle state: the sparks are
    updated in order and the submitted prefixes are their visible layers. *)
Lemma updateParticles001_spec (st : HeartAnimation) :
  particles_ready001 st ->
  exists g ps cs,
    Part001.updateParticles st
    = Some (set_particles g (map (Part001.update (beat st)) (spikes st))
              ps cs st) /\
    attr_position g
    = Some (flat_map spec_positions
              (map (Part001.update (beat st)) (spikes st))) /\
    attr_color g
    = Some (flat_map spec_colors
              (map (Part001.update (beat st)) (spikes st))) /\
    length ps = length (positions st) /\ length cs = length (colors st).
Proof.
  intros (Hp & Hc & Hn & Hcol). unfold Part001.updateParticles.
  destruct (particleLoop001_spec (beat st) (spikes st) Hcol
              (Part001.mkCursor 0 0 (positions st) (colors st)))
    as (c' & -> & E).
  - cbn [Part001.posIdx Part001.buf_positions].
    unfold PARTICLE_COUNT_6 in Hp. lia.
  - cbn [Part001.colorIdx Part001.buf_colors].
    unfold PARTICLE_COUNT_6 in Hc. lia.
  - destruct E as (Ep & Ec & Elp & Elc & Etp & Etc).
    cbn [Part001.posIdx Part001.colorIdx Part001.buf_positions
         Part001.buf_colors take app] in Etp, Etc, Elp, Elc.
    cbn [mbind option_bind]. do 3 eexists. split; [reflexivity|].
    cbn [attr_position attr_color]. rewrite Etp, Etc. done.
Qed.

(** A frame of [part_002]: the rebuilt arrays are the visible layers of the
    updated sparks, in order. *)
Lemma updateParticles002_spec (st : HeartAnimation) :
  colored (spikes st) ->
  Part002.updateParticles st
  = Some (set_particles
            (mkBufferGeometry
               (Some (flat_map spec_positions
                        (map (Part002.update (beat st)) (spikes st))))
               (Some (flat_map spec_colors
                        (map (Part002.update (beat st)) (spikes st)))))
            (map (Part002.update (beat st)) (spikes st))
            (flat_map spec_positions
               (map (Part002.update (beat st)) (spikes st)))
            (flat_map spec_colors
               (map (Part002.update (beat st)) (spikes st)))
            st).
Proof.
  intros Hcol. unfold Part002.updateParticles.
  by rewrite (particleLoop002_spec (beat st) (spikes st) Hcol [] []).
Qed.

Lemma particles_ready001_set (st : HeartAnimation) (g : BufferGeometry)
    (sp : list SparkPoint) (ps cs : list Q) :
  particles_ready001 st ->
  map birth sp = map birth (spikes st) ->
  length ps = length (positions st) -> length cs = length (colors st) ->
  particles_ready001 (set_particles g sp ps cs st).
Proof.
  intros (Hp & Hc & Hn & Hcol) Hb Hlp Hlc.
  unfold particles_ready001. cbn [positions colors spikes set_particles].
  rewrite Hlp, Hlc. repeat split; try done.
  - apply (f_equal length) in Hb. rewrite !length_map in Hb. by rewrite Hb.
  - by apply (colored_birth (spikes st)).
Qed.

Lemma particles_ready002_set (st : HeartAnimation) (g : BufferGeometry)
    (sp : list SparkPoint) (ps cs : list Q) :
  particles_ready002 st ->
  map birth sp = map birth (spikes st) ->
  particles_ready002 (set_particles g sp ps cs st).
Proof.
  intros (Hn & Hcol) Hb.
  unfold particles_ready002. cbn [spikes set_particles]. split.
  - apply (f_equal length) in Hb. rewrite !length_map in Hb. by rewrite Hb.
  - by apply (colored_birth (spikes st)).
Qed.

(** ** Construction *)

(** A result of [Math.random()], in [0, 1), picks an entry of a palette that
    is not empty. *)
Lemma pick_is_Some (pal : list Color) (u : Q) :
  pal <> [] -> 0 <= u -> u < 1 -> is_Some (pick pal u).
Proof.
  intros Hpal H0 H1. unfold pick.
  set (n := Z.of_nat (length pal)).
  assert (Hn : (0 < n)%Z) by (destruct pal; [done | subst n; simpl; lia]).
  assert (Hq : 0 < inject_Z n).
  { change 0 with (inject_Z 0). by rewrite <- Zlt_Qlt. }
  assert (Hlo : (0 <= Qfloor (u * inject_Z n))%Z).
  { change 0%Z with (Qfloor 0). apply Qfloor_resp_le. nra. }
  assert (Hhi : (Qfloor (u * inject_Z n) < n)%Z).
  { rewrite Zlt_Qlt. eapply Qle_lt_trans; [apply Qfloor_le|]. nra. }
  rewrite (proj2 (Z.leb_le _ _) Hlo).
  apply lookup_lt_is_Some. subst n. lia.
Qed.

Lemma initParticles_spikes (draws : nat -> Draw) (st : HeartAnimation) :
  (Z.of_nat (length (spikes (initParticles draws st))) = PARTICLE_COUNT)%Z.
Proof.
  unfold initParticles. cbn [spikes set_spikes].
  rewrite length_map, length_seq. by rewrite Z2Nat.id.
Qed.

Lemma initParticles_colored (draws : nat -> Draw) (st : HeartAnimation) :
  palette st <> [] ->
  (forall i, 0 <= random_color (draws i) /\ random_color (draws i) < 1) ->
  colored (spikes (initParticles draws st)).
Proof.
  intros Hpal Hdraws. unfold initParticles, colored.
  cbn [spikes set_spikes]. apply Forall_map, Forall_forall. intros i _.
  cbn [color SparkPoint_new]. apply pick_is_Some; [done | apply Hdraws ..].
Qed.

Lemma new001_lengths (sx : SimplexNoise) (pal : list Color) :
  Z.of_nat (length (positions (Part001.new_HeartAnimation sx pal)))
  = PARTICLE_COUNT_6 /\
  Z.of_nat (length (colors (Part001.new_HeartAnimation sx pal)))
  = PARTICLE_COUNT_6.
Proof.
  cbn [positions colors Part001.new_HeartAnimation].
  rewrite length_replicate. by rewrite Z2Nat.id.
Qed.

(** After a successful load, [part_001] is running on a loaded mesh. *)
Lemma onHeartLoaded001_ready (st0 : HeartAnimation) (vs : list Q) (n : nat)
    (draws : nat -> Draw) :
  palette st0 <> [] -> length vs = (3 * n)%nat ->
  (forall i, 0 <= random_color (draws i) /\ random_color (draws i) < 1) ->
  Z.of_nat (length (positions st0)) = PARTICLE_COUNT_6 ->
  Z.of_nat (length (colors st0)) = PARTICLE_COUNT_6 ->
  exists st,
    Part001.onHeartLoaded vs draws st0 = Some st /\
    particles_ready001 st /\ mesh_ready st /\ isAnimating st = true.
Proof.
  intros Hpal Hvs Hdraws Hp Hc. eexists. split; [reflexivity|].
  split; [|split; [exists vs, vs, n; by repeat split | reflexivity]].
  unfold particles_ready001.
  change (spikes (set_isAnimating true ?s)) with (spikes s).
  rewrite initParticles_spikes.
  split; [exact Hp | split; [exact Hc | split; [lia |]]].
  by apply initParticles_colored.
Qed.

(** After a successful load, [part_002] is running on a loaded mesh. *)
Lemma onHeartLoaded002_ready (st0 : HeartAnimation) (vs : list Q) (n : nat)
    (draws : nat -> Draw) :
  palette st0 <> [] -> length vs = (3 * n)%nat ->
  (forall i, 0 <= random_color (draws i) /\ random_color (draws i) < 1) ->
  exists st,
    Part002.onHeartLoaded vs draws st0 = Some st /\
    particles_ready002 st /\ mesh_ready st /\ isAnimating st = true.
Proof.
  intros Hpal Hvs Hdraws. eexists. split; [reflexivity|].
  split; [|split; [exists vs, vs, n; by repeat split | reflexivity]].
  unfold particles_ready002.
  change (spikes (set_isAnimating true ?s)) with (spikes s).
  rewrite initParticles_spikes.
  split; [lia |]. by apply initParticles_colored.
Qed.

(** From its constructor, either variant is running once the mesh has
    loaded. *)
Lemma part001_starts_running (sx : SimplexNoise) (pal : list Color)
    (vs : list Q) (n : nat) (draws : nat -> Draw) :
  pal <> [] -> length vs = (3 * n)%nat ->
  (forall i, 0 <= random_color (draws i) /\ random_color (draws i) < 1) ->
  exists st,
    Part001.onHeartLoaded vs draws (Part001.new_HeartAnimation sx pal)
    = Some st /\ running001 st.
Proof.
  intros Hpal Hvs Hdraws.
  destruct (new001_lengths sx pal) as [Hp Hc].
  destruct (onHeartLoaded001_ready (Part001.new_HeartAnimation sx pal)
              vs n draws Hpal Hvs Hdraws Hp Hc) as (st & H & Hr & Hm & _).
  exists st. split; [exact H | split; [exact Hr | exact Hm]].
Qed.

Lemma part002_starts_running (sx : SimplexNoise) (pal : list Color)
    (vs : list Q) (n : nat) (draws : nat -> Draw) :
  pal <> [] -> length vs = (3 * n)%nat ->
  (forall i, 0 <= random_color (draws i) /\ random_color (draws i) < 1) ->
  exists st,
    Part002.onHeartLoaded vs draws (Part002.new_HeartAnimation sx pal)
    = Some st /\ running002 st.
Proof.
  intros Hpal Hvs Hdraws.
  destruct (onHeartLoaded002_ready (Part002.new_HeartAnimation sx pal)
              vs n draws Hpal Hvs Hdraws) as (st & H & Hr & Hm & _).
  exists st. split; [exact H | split; [exact Hr | exact Hm]].
Qed.

(** ** Whole frames *)

(** Whatever the state, a loop that returns has updated every spark. *)
Lemma particleLoop001_spikes (b : Q) (sp : list SparkPoint) :
  forall (c : Part001.Cursor) (sp' : list SparkPoint) (c' : Part001.Cursor),
    Part001.particleLoop b sp c = Some (sp', c') ->
    sp' = map (Part001.update b) sp.
Proof.
  induction sp as [|s sp IH]; intros c sp' c' H.
  - by injection H as <- _.
  - cbn [Part001.particleLoop] in H.
    destruct (one (Part001.update b s)) as [o1|]; [|discriminate].
    cbn [mbind option_bind] in H.
    destruct (if Part001.nearLayerTest _ _ then _ else _) as [c1|];
      [|discriminate].
    cbn [mbind option_bind] in H.
    destruct (if Part001.farLayerTest _ _ then _ else _) as [c2|];
      [|discriminate].
    cbn [mbind option_bind] in H.
    destruct (Part001.particleLoop b sp c2) as [[rest cc]|] eqn:E;
      [|discriminate].
    cbn [mbind option_bind] in H. injection H as <- _.
    cbn [map]. f_equal. by apply (IH c2 rest cc).
Qed.

Lemma particleLoop002_spikes (b : Q) (sp : list SparkPoint) :
  forall (ps cs : list Q) (sp' : list SparkPoint) (out : list Q * list Q),
    Part002.particleLoop b sp ps cs = Some (sp', out) ->
    sp' = map (Part002.update b) sp.
Proof.
  induction sp as [|s sp IH]; intros ps cs sp' out H.
  - by injection H as <- _.
  - cbn [Part002.particleLoop] in H.
    destruct (one (Part002.update b s)) as [o1|]; [|discriminate].
    cbn [mbind option_bind] in H.
    destruct (if Part002.nearLayerTest _ _ then _ else _) as [[ps1 cs1]|];
      [|discriminate].
    cbn [mbind option_bind] in H.
    destruct (if Part002.farLayerTest _ _ then _ else _) as [[ps2 cs2]|];
      [|discriminate].
    cbn [mbind option_bind] in H.
    destruct (Part002.particleLoop b sp ps2 cs2) as [[rest cc]|] eqn:E;
      [|discriminate].
    cbn [mbind option_bind] in H. injection H as <- _.
    cbn [map]. f_equal. by apply (IH ps2 cs2 rest cc).
Qed.

Lemma frame_of_refl (st : HeartAnimation) : frame_of st st.
Proof. by repeat split. Qed.

Lemma frame_of_trans (st1 st2 st3 : HeartAnimation) :
  frame_of st1 st2 -> frame_of st2 st3 -> frame_of st1 st3.
Proof.
  intros (? & ? & ? & ? & ? & ? & ?) (? & ? & ? & ? & ? & ? & ?).
  repeat split; congruence.
Qed.

Lemma updateParticles001_frame (st st' : HeartAnimation) :
  Part001.updateParticles st = Some st' ->
  frame_of st st' /\ heart st' = heart st.
Proof.
  unfold Part001.updateParticles. intros H.
  destruct (Part001.particleLoop _ _ _) as [[sp c]|] eqn:E; [|discriminate].
  cbn [mbind option_bind] in H. injection H as <-.
  apply particleLoop001_spikes in E as ->.
  split; [|done]. unfold frame_of. cbn [spikes set_particles].
  rewrite birth_update001. by repeat split.
Qed.

Lemma updateParticles002_frame (st st' : HeartAnimation) :
  Part002.updateParticles st = Some st' ->
  frame_of st st' /\ heart st' = heart st.
Proof.
  unfold Part002.updateParticles. intros H.
  destruct (Part002.particleLoop _ _ _ _) as [[sp [ps cs]]|] eqn:E;
    [|discriminate].
  cbn [mbind option_bind] in H. injection H as <-.
  apply particleLoop002_spikes in E as ->.
  split; [|done]. unfold frame_of. cbn [spikes set_particles].
  rewrite birth_update002. by repeat split.
Qed.

Lemma updateHeartGeometry001_frame (time : Q) (st st' : HeartAnimation) :
  Part001.updateHeartGeometry time st = Some st' -> frame_of st st'.
Proof.
  unfold Part001.updateHeartGeometry. intros H.
  destruct (heart st) as [vs|]; [|discriminate].
  cbn [mbind option_bind] in H.
  destruct (Part001.heartLoop _ _ _ _ _ _ _) as [vs'|]; [|discriminate].
  injection H as <-. by repeat split.
Qed.

Lemma updateHeartGeometry002_frame (time : Q) (st st' : HeartAnimation) :
  Part002.updateHeartGeometry time st = Some st' -> frame_of st st'.
Proof.
  unfold Part002.updateHeartGeometry. intros H.
  destruct (heart st) as [vs|]; [|discriminate].
  cbn [mbind option_bind] in H.
  destruct (Part002.heartLoop _ _ _ _ _ _ _) as [vs'|]; [|discriminate].
  injection H as <-. by repeat split.
Qed.

Lemma render001_frame (hidden : bool) (time : Q) (st st' : HeartAnimation) :
  Part001.render hidden time st = Some st' -> frame_of st st'.
Proof.
  unfold Part001.render. intros H.
  destruct (negb (isAnimating st) || _);
    [injection H as <-; apply frame_of_refl|].
  destruct hidden; [injection H as <-; apply frame_of_refl|].
  destruct (Part001.updateParticles st) as [st1|] eqn:E; [|discriminate].
  cbn [mbind option_bind] in H.
  apply updateParticles001_frame in E as [E _].
  apply updateHeartGeometry001_frame in H.
  by apply (frame_of_trans st st1 st').
Qed.

Lemma render002_frame (time : Q) (st st' : HeartAnimation) :
  Part002.render time st = Some st' -> frame_of st st'.
Proof.
  unfold Part002.render. intros H.
  destruct (negb (isAnimating st) || _);
    [injection H as <-; apply frame_of_refl|].
  destruct (Part002.updateParticles st) as [st1|] eqn:E; [|discriminate].
  cbn [mbind option_bind] in H.
  apply updateParticles002_frame in E as [E _].
  apply updateHeartGeometry002_frame in H.
  by apply (frame_of_trans st st1 st').
Qed.

Lemma run_updates_frame (step : Q -> HeartAnimation -> option HeartAnimation) :
  (forall time st st', step time st = Some st' -> frame_of st st') ->
  forall history st st',
    run_updates step history st = Some st' ->
    originHeart st' = originHeart st /\
    map birth (spikes st') = map birth (spikes st).
Proof.
  intros Hstep history.
  induction history as [|[time b] history IH]; intros st st' H.
  - by injection H as <-.
  - cbn [run_updates] in H.
    destruct (step time (set_beat b st)) as [st1|] eqn:E; [|discriminate].
    cbn [mbind option_bind] in H.
    apply Hstep in E as (Ho & Hb & _). apply IH in H as [Ho' Hb'].
    cbn [originHeart spikes set_beat] in Ho, Hb.
    split; congruence.
Qed.

(** A running [part_001] completes its frame and is running afterwards. *)
Lemma render001_running (hidden : bool) (time : Q) (st : HeartAnimation) :
  running001 st ->
  exists st', Part001.render hidden time st = Some st' /\ running001 st'.
Proof.
  intros [Hp Hm]. unfold Part001.render.
  destruct (negb (isAnimating st) || _); [by exists st|].
  destruct hidden; [by exists st|].
  destruct (updateParticles001_spec st Hp)
    as (g & ps & cs & -> & _ & _ & Hlp & Hlc).
  cbn [mbind option_bind].
  set (st1 := set_particles g (map (Part001.update (beat st)) (spikes st))
                ps cs st).
  assert (Hp1 : particles_ready001 st1).
  { apply particles_ready001_set; try done. apply birth_update001. }
  destruct (mesh_ready_step Part001.updateHeartGeometry spec_scale
              updateHeartGeometry001_eq st1 time Hm)
    as (o & Ho & -> & _ & Hm').
  eexists. split; [done|]. split; [exact Hp1 | exact Hm'].
Qed.

Lemma render002_running (time : Q) (st : HeartAnimation) :
  running002 st ->
  exists st', Part002.render time st = Some st' /\ running002 st'.
Proof.
  intros [Hp Hm]. unfold Part002.render.
  destruct (negb (isAnimating st) || _); [by exists st|].
  rewrite (updateParticles002_spec st (proj2 Hp)).
  cbn [mbind option_bind].
  match goal with
  | |- context [Part002.updateHeartGeometry time ?s] => set (st1 := s)
  end.
  assert (Hp1 : particles_ready002 st1).
  { apply particles_ready002_set; try done. apply birth_update002. }
  destruct (mesh_ready_step Part002.updateHeartGeometry plain_scale
              updateHeartGeometry002_eq st1 time Hm)
    as (o & Ho & -> & _ & Hm').
  eexists. split; [done|]. split; [exact Hp1 | exact Hm'].
Qed.

(** A run of steps that keep a state ready returns a ready state. *)
Lemma run_updates_total (step : Q -> HeartAnimation -> option HeartAnimation)
    (ready : HeartAnimation -> Prop) :
  (forall b st, ready st -> ready (set_beat b st)) ->
  (forall time st, ready st -> exists st', step time st = Some st' /\ ready st') ->
  forall history st,
    ready st -> exists st', run_updates step history st = Some st' /\ ready st'.
Proof.
  intros Hbeat Hstep history.
  induction history as [|[time b] history IH]; intros st Hst.
  - by exists st.
  - destruct (Hstep time (set_beat b st) (Hbeat b st Hst)) as (st1 & E & Hst1).
    cbn [run_updates]. rewrite E. cbn [mbind option_bind]. by apply IH.
Qed.

(** ** The sample states *)

Lemma sample_sparks_colored : colored sample_sparks.
Proof.
  unfold colored, sample_sparks. cbn [map seq].
  repeat (constructor; [eexists; vm_compute; reflexivity|]).
  constructor.
Qed.

Lemma sample001_running : running001 sample001.
Proof.
  split.
  - unfold particles_ready001, sample001. cbn [positions colors spikes].
    rewrite length_replicate, Z2Nat.id by (by vm_compute).
    split; [done | split; [done | split; [by vm_compute|]]].
    apply sample_sparks_colored.
  - exists sample_mesh, sample_mesh, 2%nat. by repeat split.
Qed.

Lemma sample002_running : running002 sample002.
Proof.
  split.
  - split; [by vm_compute | apply sample_sparks_colored].
  - exists sample_mesh, sample_mesh, 2%nat. by repeat split.
Qed.

(** ** The claims *)

(** C1, as amended.  For a loaded mesh, the displacement writes every origin
    vertex multiplied component by component by one scalar.  In [part_001]
    the scalar is [(noise4D(x S, y S, z S, t k) + 1) * (S * A) * beat], with
    [S] the noise scale and [A] the noise amplitude; in [part_002] it is
    [(noise4D(x S, y S, z S, t k) + 1) * A * beat], without the factor [S]. *)
Theorem vertex_displacement_scale (st : HeartAnimation) (vs o : list Q)
    (n : nat) (time : Q) :
  heart st = Some vs -> originHeart st = Some o ->
  length vs = length o -> length o = (3 * n)%nat ->
  Part001.updateHeartGeometry time st
  = Some (set_heart
            (Some (scale_vertices (spec_scale (simplex st) time (beat st)) o))
            st) /\
  Part002.updateHeartGeometry time st
  = Some (set_heart
            (Some (scale_vertices (plain_scale (simplex st) time (beat st)) o))
            st).
Proof.
  intros Hvs Ho Hlen Hn. split.
  - by apply (updateHeartGeometry001_eq st vs o n).
  - by apply (updateHeartGeometry002_eq st vs o n).
Qed.

Lemma vertex_displacement_scale_witness :
  Part001.updateHeartGeometry 1000 sample002
  = Some (set_heart
            (Some (scale_vertices
                     (spec_scale (simplex sample002) 1000 (beat sample002))
                     sample_mesh))
            sample002) /\
  Part002.updateHeartGeometry 1000 sample002
  = Some (set_heart
            (Some (scale_vertices
                     (plain_scale (simplex sample002) 1000 (beat sample002))
                     sample_mesh))
            sample002).
Proof.
  apply (vertex_displacement_scale sample002 sample_mesh sample_mesh 2 1000);
    reflexivity.
Defined.

(** C1 fails as stated for [part_002]: on the mesh [(1, 0, 0), (0, 1, 0.1)]
    with constant noise 0 and beat 0.5 the first coordinate becomes 0.075,
    where the scalar of the claim gives 0.1125. *)
Lemma part002_vertex_scale_counterexample :
  exists st' vs x,
    Part002.updateHeartGeometry 1000 sample002 = Some st' /\
    heart st' = Some vs /\ vs !! 0%nat = Some x /\ x == 0.075 /\
    ~ Forall2 Qeq vs
        (scale_vertices (spec_scale (simplex sample002) 1000 (beat sample002))
           sample_mesh).
Proof.
  eexists _, _, _. split; [vm_compute; reflexivity|].
  split; [reflexivity|]. split; [reflexivity|]. split; [reflexivity|].
  intros H. apply Forall2_cons_1 in H as [H _]. vm_compute in H.
  discriminate H.
Qed.

(** C2, as amended.  [SparkPoint.update] computes
    [noise1 = noise4D(p.x, p.y, p.z, 0.1) + 1.5], with the constant 0.1 as
    fourth input, and sets the far position to
    [p * (1 + noise2 * (beat + 0.3) - beat * 1.2)] in both variants.  The
    near position is [p * (1.01 + noise1 * S * A * beat)] in [part_001] and
    [p * (1.01 + noise1 * A * beat)], without the noise scale [S], in
    [part_002]. *)
Theorem spark_layer_positions (s : SparkPoint) (b : Q) :
  (one (Part001.update b s)
   = Some (multiplyScalar (pos s)
             (1.01 + spec_noise1 (sp_simplex s) (pos s)
                     * (NOISE_SCALE * NOISE_AMPLITUDE) * b)) /\
   1.01 + spec_noise1 (sp_simplex s) (pos s)
          * (NOISE_SCALE * NOISE_AMPLITUDE) * b
   == spec_near_factor (sp_simplex s) (pos s) b /\
   two (Part001.update b s)
   = Some (multiplyScalar (pos s) (spec_far_factor (sp_simplex s) (pos s) b)))
  /\
  (one (Part002.update b s)
   = Some (multiplyScalar (pos s)
             (plain_near_factor (sp_simplex s) (pos s) b)) /\
   two (Part002.update b s)
   = Some (multiplyScalar (pos s) (spec_far_factor (sp_simplex s) (pos s) b))).
Proof.
  unfold Part001.update, Part002.update, spec_near_factor, plain_near_factor,
    spec_far_factor, spec_noise1, spec_noise2.
  cbn [one two]. rewrite !Qmult_1_r_eq, !clone_eq.
  repeat split. ring.
Qed.

(** C2 fails as stated for [part_002]: for the origin [(1, 0, 0)], constant
    noise 0 and beat 0.5 the near position has x = 1.1225, where the claim
    gives 1.17875. *)
Lemma part002_near_position_counterexample :
  exists near,
    one (Part002.update 0.5 sample_spark) = Some near /\
    vx near == 1.1225 /\
    ~ vec_eq near
        (multiplyScalar (pos sample_spark)
           (spec_near_factor (sp_simplex sample_spark) (pos sample_spark) 0.5)).
Proof.
  eexists. split; [reflexivity|]. split; [reflexivity|].
  intros [H _]. vm_compute in H. discriminate H.
Qed.

(** C3.  In both variants the condition of the near layer holds exactly when
    the z of the near position is strictly inside the window of layer 1, and
    the condition of the far layer exactly when that same z (of the near
    position) is strictly inside the window of layer 2; and the buffers a
    frame submits are, spark after spark, the near entry when the first
    window holds followed by the far entry when the second holds, nothing
    being appended for a layer whose window fails. *)
Theorem layers_appended_iff_in_window (st : HeartAnimation) :
  (forall r o1,
      (Part001.nearLayerTest r o1 = true <-> in_window 1 r (vz o1)) /\
      (Part001.farLayerTest r o1 = true <-> in_window 2 r (vz o1)) /\
      (Part002.nearLayerTest r o1 = true <-> in_window 1 r (vz o1)) /\
      (Part002.farLayerTest r o1 = true <-> in_window 2 r (vz o1))) /\
  (particles_ready001 st ->
   exists st',
     Part001.updateParticles st = Some st' /\
     spikes st' = map (Part001.update (beat st)) (spikes st) /\
     attr_position (geometry st')
     = Some (flat_map spec_positions (spikes st')) /\
     attr_color (geometry st') = Some (flat_map spec_colors (spikes st'))) /\
  (particles_ready002 st ->
   exists st',
     Part002.updateParticles st = Some st' /\
     spikes st' = map (Part002.update (beat st)) (spikes st) /\
     attr_position (geometry st')
     = Some (flat_map spec_positions (spikes st')) /\
     attr_color (geometry st') = Some (flat_map spec_colors (spikes st'))).
Proof.
  split; [|split].
  - intros r o1.
    split; [apply nearLayerTest001_window|].
    split; [apply farLayerTest001_window|].
    split; [apply nearLayerTest002_window | apply farLayerTest002_window].
  - intros Hst.
    destruct (updateParticles001_spec st Hst)
      as (g & ps & cs & -> & Hp & Hc & _).
    eexists. split; [reflexivity|]. by repeat split.
  - intros [_ Hcol]. rewrite (updateParticles002_spec st Hcol).
    eexists. split; [reflexivity|]. by repeat split.
Qed.

Lemma layers_appended_iff_in_window_witness :
  (exists st',
     Part001.updateParticles sample001 = Some st' /\
     spikes st' = map (Part001.update (beat sample001)) (spikes sample001) /\
     attr_position (geometry st')
     = Some (flat_map spec_positions (spikes st')) /\
     attr_color (geometry st') = Some (flat_map spec_colors (spikes st'))) /\
  (exists st',
     Part002.updateParticles sample002 = Some st' /\
     spikes st' = map (Part002.update (beat sample002)) (spikes sample002) /\
     attr_position (geometry st')
     = Some (flat_map spec_positions (spikes st')) /\
     attr_color (geometry st') = Some (flat_map spec_colors (spikes st'))).
Proof.
  split.
  - apply (proj1 (proj2 (layers_appended_iff_in_window sample001))).
    exact (proj1 sample001_running).
  - apply (proj2 (proj2 (layers_appended_iff_in_window sample002))).
    exact (proj1 sample002_running).
Defined.

(** C5.  With the near z fixed, a layer condition that holds for the jitter
    [j1] holds for every jitter [j2] at least [j1]; this is so for both
    layers of both variants, and for the window of any layer factor
    [k >= 0]. *)
Theorem window_monotone_in_jitter (j1 j2 : Q) (o1 : Vector3) :
  j1 <= j2 ->
  (Part001.nearLayerTest j1 o1 = true -> Part001.nearLayerTest j2 o1 = true) /\
  (Part001.farLayerTest j1 o1 = true -> Part001.farLayerTest j2 o1 = true) /\
  (Part002.nearLayerTest j1 o1 = true -> Part002.nearLayerTest j2 o1 = true) /\
  (Part002.farLayerTest j1 o1 = true -> Part002.farLayerTest j2 o1 = true) /\
  (forall k z, 0 <= k -> in_window k j1 z -> in_window k j2 z).
Proof.
  intros Hj.
  rewrite ?nearLayerTest001_window, ?farLayerTest001_window,
    ?nearLayerTest002_window, ?farLayerTest002_window.
  split; [|split; [|split; [|split]]];
    try (apply in_window_mono; [lra | exact Hj]).
  intros k z Hk. by apply in_window_mono.
Qed.

Lemma window_monotone_in_jitter_witness :
  (Part001.nearLayerTest 0.0015 (mkVector3 0 1.1 0.116)  = true ->
   Part001.nearLayerTest 0.006 (mkVector3 0 1.1 0.116) = true) /\
  (Part001.farLayerTest 0.0015 (mkVector3 0 1.1 0.116) = true ->
   Part001.farLayerTest 0.006 (mkVector3 0 1.1 0.116) = true) /\
  (Part002.nearLayerTest 0.0015 (mkVector3 0 1.1 0.116) = true ->
   Part002.nearLayerTest 0.006 (mkVector3 0 1.1 0.116) = true) /\
  (Part002.farLayerTest 0.0015 (mkVector3 0 1.1 0.116) = true ->
   Part002.farLayerTest 0.006 (mkVector3 0 1.1 0.116) = true) /\
  (forall k z, 0 <= k -> in_window k 0.0015 z -> in_window k 0.006 z).
Proof.
  apply (window_monotone_in_jitter 0.0015 0.006 (mkVector3 0 1.1 0.116)).
  vm_compute. discriminate.
Defined.

Lemma visible_layers_lengths (sp : list SparkPoint) :
  Forall (fun s => is_Some (one s) /\ is_Some (two s) /\ is_Some (color s)) sp ->
  (Z.of_nat (length sp) <= PARTICLE_COUNT)%Z ->
  length (flat_map spec_positions sp) = length (flat_map spec_colors sp) /\
  (length (flat_map spec_positions sp) mod 3 = 0)%nat /\
  (Z.of_nat (length (flat_map spec_positions sp)) <= 2 * PARTICLE_COUNT * 3)%Z.
Proof.
  intros Hsp Hn.
  destruct (flat_map_layers_length sp Hsp) as (k & Hk & -> & ->).
  split; [done|]. split; [|lia].
  rewrite Nat.mul_comm. apply Nat.Div0.mod_mul.
Qed.

(** C6.  After the assembly of a frame the submitted position and colour
    buffers have the same length, a multiple of 3 that is at most
    [2 * PARTICLE_COUNT * 3], whatever the beat, the jitters and the noise
    function; the particle state is then ready for the next frame. *)
Theorem render_buffer_lengths (st : HeartAnimation) :
  (particles_ready001 st ->
   exists st' ps cs,
     Part001.updateParticles st = Some st' /\
     attr_position (geometry st') = Some ps /\
     attr_color (geometry st') = Some cs /\
     length ps = length cs /\ (length ps mod 3 = 0)%nat /\
     (Z.of_nat (length ps) <= 2 * PARTICLE_COUNT * 3)%Z /\
     particles_ready001 st') /\
  (particles_ready002 st ->
   exists st' ps cs,
     Part002.updateParticles st = Some st' /\
     attr_position (geometry st') = Some ps /\
     attr_color (geometry st') = Some cs /\
     length ps = length cs /\ (length ps mod 3 = 0)%nat /\
     (Z.of_nat (length ps) <= 2 * PARTICLE_COUNT * 3)%Z /\
     particles_ready002 st').
Proof.
  split.
  - intros Hst.
    destruct (updateParticles001_spec st Hst)
      as (g & ps & cs & -> & Hp & Hc & Hlp & Hlc).
    destruct (visible_layers_lengths
                (map (Part001.update (beat st)) (spikes st)))
      as (Heq & Hmod & Hle).
    { apply colored_update001, Hst. }
    { rewrite length_map. apply Hst. }
    eexists _, _, _. split; [reflexivity|].
    split; [exact Hp|]. split; [exact Hc|].
    split; [exact Heq|]. split; [exact Hmod|]. split; [exact Hle|].
    apply particles_ready001_set; try done. apply birth_update001.
  - intros Hst. rewrite (updateParticles002_spec st (proj2 Hst)).
    destruct (visible_layers_lengths
                (map (Part002.update (beat st)) (spikes st)))
      as (Heq & Hmod & Hle).
    { apply colored_update002, Hst. }
    { rewrite length_map. apply Hst. }
    eexists _, _, _. split; [reflexivity|].
    split; [reflexivity|]. split; [reflexivity|].
    split; [exact Heq|]. split; [exact Hmod|]. split; [exact Hle|].
    apply particles_ready002_set; try done. apply birth_update002.
Qed.

Lemma render_buffer_lengths_witness :
  (exists st' ps cs,
     Part001.updateParticles sample001 = Some st' /\
     attr_position (geometry st') = Some ps /\
     attr_color (geometry st') = Some cs /\
     length ps = length cs /\ (length ps mod 3 = 0)%nat /\
     (Z.of_nat (length ps) <= 2 * PARTICLE_COUNT * 3)%Z /\
     particles_ready001 st') /\
  (exists st' ps cs,
     Part002.updateParticles sample002 = Some st' /\
     attr_position (geometry st') = Some ps /\
     attr_color (geometry st') = Some cs /\
     length ps = length cs /\ (length ps mod 3 = 0)%nat /\
     (Z.of_nat (length ps) <= 2 * PARTICLE_COUNT * 3)%Z /\
     particles_ready002 st').
Proof.
  split.
  - apply (proj1 (render_buffer_lengths sample001)).
    exact (proj1 sample001_running).
  - apply (proj2 (render_buffer_lengths sample002)).
    exact (proj1 sample002_running).
Defined.

(** C10.  For a jitter that is not negative, the near-layer condition
    implies the far-layer condition in both variants, the window of layer 1
    lying inside the window of layer 2; so an updated spark contributes
    nothing, its far entry alone, or its near entry followed by its far
    entry, never its near entry alone. *)
Theorem near_layer_implies_far_layer (r : Q) (o1 : Vector3) :
  0 <= r ->
  (Part001.nearLayerTest r o1 = true -> Part001.farLayerTest r o1 = true) /\
  (Part002.nearLayerTest r o1 = true -> Part002.farLayerTest r o1 = true) /\
  (forall z, in_window 1 r z -> in_window 2 r z) /\
  (forall s o2,
      rand s = r -> one s = Some o1 -> two s = Some o2 ->
      spec_positions s = [] \/ spec_positions s = xyz o2 \/
      spec_positions s = xyz o1 ++ xyz o2).
Proof.
  intros Hr.
  assert (Hw : forall z, in_window 1 r z -> in_window 2 r z).
  { unfold in_window. intros z [H1 H2]. split; lra. }
  rewrite ?nearLayerTest001_window, ?farLayerTest001_window,
    ?nearLayerTest002_window, ?farLayerTest002_window.
  split; [apply Hw|]. split; [apply Hw|]. split; [exact Hw|].
  intros s o2 Hs H1 H2. unfold spec_positions, spec_layers.
  rewrite H1, H2, Hs. cbn [from_option].
  do 2 case_bool_decide; cbn [layer app]; auto.
  exfalso. auto.
Qed.

Lemma near_layer_implies_far_layer_witness :
  (Part001.nearLayerTest 0.006 (mkVector3 0 1.1 0.116) = true ->
   Part001.farLayerTest 0.006 (mkVector3 0 1.1 0.116) = true) /\
  (Part002.nearLayerTest 0.006 (mkVector3 0 1.1 0.116) = true ->
   Part002.farLayerTest 0.006 (mkVector3 0 1.1 0.116) = true) /\
  (forall z, in_window 1 0.006 z -> in_window 2 0.006 z) /\
  (forall s o2,
      rand s = 0.006 -> one s = Some (mkVector3 0 1.1 0.116) ->
      two s = Some o2 ->
      spec_positions s = [] \/ spec_positions s = xyz o2 \/
      spec_positions s = xyz (mkVector3 0 1.1 0.116) ++ xyz o2).
Proof.
  apply (near_layer_implies_far_layer 0.006 (mkVector3 0 1.1 0.116)).
  vm_compute. discriminate.
Defined.

(** C4.  On a loaded mesh, after any history of displacements with any
    beats, one displacement with beat 0 succeeds in both variants, leaves
    the origin copy as it was, and writes a buffer of the same length whose
    every coordinate is 0. *)
Theorem zero_beat_collapses_mesh (st : HeartAnimation)
    (history : list (Q * Q)) (time : Q) :
  mesh_ready st ->
  (exists st1 st2 vs o,
     run_updates Part001.updateHeartGeometry history st = Some st1 /\
     Part001.updateHeartGeometry time (set_beat 0 st1) = Some st2 /\
     originHeart st = Some o /\ originHeart st2 = Some o /\
     heart st2 = Some vs /\ length vs = length o /\
     Forall (fun q => q == 0) vs) /\
  (exists st1 st2 vs o,
     run_updates Part002.updateHeartGeometry history st = Some st1 /\
     Part002.updateHeartGeometry time (set_beat 0 st1) = Some st2 /\
     originHeart st = Some o /\ originHeart st2 = Some o /\
     heart st2 = Some vs /\ length vs = length o /\
     Forall (fun q => q == 0) vs).
Proof.
  intros Hst. split.
  - apply (zero_beat_resets Part001.updateHeartGeometry spec_scale
             updateHeartGeometry001_eq spec_scale_zero st history time Hst).
  - apply (zero_beat_resets Part002.updateHeartGeometry plain_scale
             updateHeartGeometry002_eq plain_scale_zero st history time Hst).
Qed.

Lemma zero_beat_collapses_mesh_witness :
  (exists st1 st2 vs o,
     run_updates Part001.updateHeartGeometry [(16, 0.2); (32, 0.5)] sample002
     = Some st1 /\
     Part001.updateHeartGeometry 48 (set_beat 0 st1) = Some st2 /\
     originHeart sample002 = Some o /\ originHeart st2 = Some o /\
     heart st2 = Some vs /\ length vs = length o /\
     Forall (fun q => q == 0) vs) /\
  (exists st1 st2 vs o,
     run_updates Part002.updateHeartGeometry [(16, 0.2); (32, 0.5)] sample002
     = Some st1 /\
     Part002.updateHeartGeometry 48 (set_beat 0 st1) = Some st2 /\
     originHeart sample002 = Some o /\ originHeart st2 = Some o /\
     heart st2 = Some vs /\ length vs = length o /\
     Forall (fun q => q == 0) vs).
Proof.
  apply (zero_beat_collapses_mesh sample002 [(16, 0.2); (32, 0.5)] 48).
  exists sample_mesh, sample_mesh, 2%nat. repeat split; reflexivity.
Defined.

Lemma update001_history (s : SparkPoint) (history : list Q) :
  pos (fold_left (fun s b => Part001.update b s) history s) = pos s /\
  sp_simplex (fold_left (fun s b => Part001.update b s) history s)
  = sp_simplex s.
Proof.
  revert s. induction history as [|b history IH]; intros s; [done|].
  cbn [fold_left]. destruct (IH (Part001.update b s)) as [-> ->]. done.
Qed.

Lemma update002_history (s : SparkPoint) (history : list Q) :
  pos (fold_left (fun s b => Part002.update b s) history s) = pos s /\
  sp_simplex (fold_left (fun s b => Part002.update b s) history s)
  = sp_simplex s.
Proof.
  revert s. induction history as [|b history IH]; intros s; [done|].
  cbn [fold_left]. destruct (IH (Part002.update b s)) as [-> ->]. done.
Qed.

Lemma update001_same (s1 s2 : SparkPoint) (b : Q) :
  pos s1 = pos s2 -> sp_simplex s1 = sp_simplex s2 ->
  one (Part001.update b s1) = one (Part001.update b s2) /\
  two (Part001.update b s1) = two (Part001.update b s2).
Proof. intros Hp Hs. unfold Part001.update. cbn [one two]. by rewrite Hp, Hs. Qed.

Lemma update002_same (s1 s2 : SparkPoint) (b : Q) :
  pos s1 = pos s2 -> sp_simplex s1 = sp_simplex s2 ->
  one (Part002.update b s1) = one (Part002.update b s2) /\
  two (Part002.update b s1) = two (Part002.update b s2).
Proof. intros Hp Hs. unfold Part002.update. cbn [one two]. by rewrite Hp, Hs. Qed.

(** C7.  Two sparks with the same origin and the same noise function get the
    same near and far positions from [update] at the same beat, whatever
    their jitters, colours and earlier positions; in particular the result
    of an update does not depend on the updates, at any beats, that came
    before it.  [update] takes no time and no frame count. *)
Theorem spark_positions_function_of_beat (s1 s2 : SparkPoint) (b : Q)
    (history : list Q) :
  pos s1 = pos s2 -> sp_simplex s1 = sp_simplex s2 ->
  (one (Part001.update b s1) = one (Part001.update b s2) /\
   two (Part001.update b s1) = two (Part001.update b s2)) /\
  (one (Part001.update b
          (fold_left (fun s b' => Part001.update b' s) history s1))
   = one (Part001.update b s2) /\
   two (Part001.update b
          (fold_left (fun s b' => Part001.update b' s) history s1))
   = two (Part001.update b s2)) /\
  (one (Part002.update b s1) = one (Part002.update b s2) /\
   two (Part002.update b s1) = two (Part002.update b s2)) /\
  (one (Part002.update b
          (fold_left (fun s b' => Part002.update b' s) history s1))
   = one (Part002.update b s2) /\
   two (Part002.update b
          (fold_left (fun s b' => Part002.update b' s) history s1))
   = two (Part002.update b s2)).
Proof.
  intros Hp Hs.
  destruct (update001_history s1 history) as [Hp1 Hs1].
  destruct (update002_history s1 history) as [Hp2 Hs2].
  split; [by apply update001_same|].
  split; [apply update001_same; congruence|].
  split; [by apply update002_same|].
  apply update002_same; congruence.
Qed.

Lemma spark_positions_function_of_beat_witness :
  (one (Part001.update 0.4 sample_spark)
   = one (Part001.update 0.4 sample_twin) /\
   two (Part001.update 0.4 sample_spark)
   = two (Part001.update 0.4 sample_twin)) /\
  (one (Part001.update 0.4
          (fold_left (fun s b' => Part001.update b' s) [0.1; 0.5; 0]
             sample_spark))
   = one (Part001.update 0.4 sample_twin) /\
   two (Part001.update 0.4
          (fold_left (fun s b' => Part001.update b' s) [0.1; 0.5; 0]
             sample_spark))
   = two (Part001.update 0.4 sample_twin)) /\
  (one (Part002.update 0.4 sample_spark)
   = one (Part002.update 0.4 sample_twin) /\
   two (Part002.update 0.4 sample_spark)
   = two (Part002.update 0.4 sample_twin)) /\
  (one (Part002.update 0.4
          (fold_left (fun s b' => Part002.update b' s) [0.1; 0.5; 0]
             sample_spark))
   = one (Part002.update 0.4 sample_twin) /\
   two (Part002.update 0.4
          (fold_left (fun s b' => Part002.update b' s) [0.1; 0.5; 0]
             sample_spark))
   = two (Part002.update 0.4 sample_twin)).
Proof.
  apply (spark_positions_function_of_beat sample_spark sample_twin 0.4
           [0.1; 0.5; 0]); reflexivity.
Defined.

Lemma running001_set_beat (b : Q) (st : HeartAnimation) :
  running001 st -> running001 (set_beat b st).
Proof. intros H. exact H. Qed.

Lemma running002_set_beat (b : Q) (st : HeartAnimation) :
  running002 st -> running002 (set_beat b st).
Proof. intros H. exact H. Qed.

(** C8.  Through any run of frames, with the tween writing the beat between
    them, the origin copy of the mesh and the origin, colour and jitter of
    every spark are what they were at the start, in both variants; and a
    running application completes every such run. *)
Theorem origins_never_overwritten (hidden : Q -> bool)
    (history : list (Q * Q)) (st : HeartAnimation) :
  (forall st',
      run_updates (fun time => Part001.render (hidden time) time) history st
      = Some st' ->
      originHeart st' = originHeart st /\
      map birth (spikes st') = map birth (spikes st)) /\
  (forall st',
      run_updates Part002.render history st = Some st' ->
      originHeart st' = originHeart st /\
      map birth (spikes st') = map birth (spikes st)) /\
  (running001 st ->
   exists st',
     run_updates (fun time => Part001.render (hidden time) time) history st
     = Some st' /\ running001 st') /\
  (running002 st ->
   exists st',
     run_updates Part002.render history st = Some st' /\ running002 st').
Proof.
  split; [|split; [|split]].
  - apply run_updates_frame. intros time s s'. apply render001_frame.
  - apply run_updates_frame. apply render002_frame.
  - apply (run_updates_total _ running001 running001_set_beat).
    intros time s. apply render001_running.
  - apply (run_updates_total _ running002 running002_set_beat).
    apply render002_running.
Qed.

Lemma origins_never_overwritten_witness :
  (originHeart sample_after001 = originHeart sample002 /\
   map birth (spikes sample_after001) = map birth (spikes sample002)) /\
  (originHeart sample_after002 = originHeart sample002 /\
   map birth (spikes sample_after002) = map birth (spikes sample002)) /\
  (exists st',
     run_updates (fun time => Part001.render false time) sample_history
       sample001 = Some st' /\ running001 st') /\
  (exists st',
     run_updates Part002.render sample_history sample002 = Some st' /\
     running002 st').
Proof.
  split; [|split; [|split]].
  - apply (proj1 (origins_never_overwritten (fun _ => false) sample_history
                    sample002)).
    vm_compute. reflexivity.
  - apply (proj1 (proj2 (origins_never_overwritten (fun _ => false)
                           sample_history sample002))).
    vm_compute. reflexivity.
  - apply (proj1 (proj2 (proj2 (origins_never_overwritten (fun _ => false)
                                  sample_history sample001)))).
    exact sample001_running.
  - apply (proj2 (proj2 (proj2 (origins_never_overwritten (fun _ => false)
                                  sample_history sample002)))).
    exact sample002_running.
Defined.

(** C9, as amended.  In [part_001], when the elements of the error display
    exist, the load-error handler shows the display with its message and
    makes the retry button visible with a click handler that runs
    [loadHeartModel] again, so a click fetches the model once more.  In
    [part_002] the handler installs nothing on the retry button: it replaces
    the content of [#loading] by the message and the advice to refresh the
    page. *)
Theorem load_error_retry (doc : Document) :
  (is_Some (error_display doc) -> is_Some (error_message doc) ->
   is_Some (error_retry doc) ->
   error_display (Part001.onHeartError doc) = Some false /\
   error_message (Part001.onHeartError doc)
   = Some
       "Failed to load heart model. Please check your internet connection and refresh the page."%string /\
   error_retry (Part001.onHeartError doc)
   = Some (mkRetryButton (Some RetryLoadHeartModel) "block") /\
   click_retry (Part001.onHeartError doc) = [LoaderLoad heart_url]) /\
  (error_retry (Part002.onHeartError doc) = error_retry doc /\
   click_retry (Part002.onHeartError doc) = click_retry doc /\
   error_display (Part002.onHeartError doc) = error_display doc /\
   (is_Some (loading doc) ->
    loading (Part002.onHeartError doc)
    = Some (ErrorText "Failed to load heart model"
              "Please refresh the page to try again."))).
Proof.
  split.
  - intros [d Hd] [m Hm] [r Hr].
    unfold Part001.onHeartError, Part001.showError, click_retry.
    rewrite Hd, Hm, Hr. cbn. by repeat split.
  - unfold Part002.onHeartError, Part002.showError, click_retry.
    destruct (loading doc) as [l|] eqn:Hl; cbn; repeat split;
      intros [? [=]].
Qed.

Lemma load_error_retry_witness :
  (error_display (Part001.onHeartError sample_document) = Some false /\
   error_message (Part001.onHeartError sample_document)
   = Some
       "Failed to load heart model. Please check your internet connection and refresh the page."%string /\
   error_retry (Part001.onHeartError sample_document)
   = Some (mkRetryButton (Some RetryLoadHeartModel) "block") /\
   click_retry (Part001.onHeartError sample_document)
   = [LoaderLoad heart_url]) /\
  loading (Part002.onHeartError sample_document)
  = Some (ErrorText "Failed to load heart model"
            "Please refresh the page to try again.").
Proof.
  split.
  - apply (proj1 (load_error_retry sample_document)); by eexists.
  - apply (proj2 (load_error_retry sample_document)). by eexists.
Defined.

(** C9 fails as stated for [part_002]: on a page that has every element,
    the error display stays hidden after its load-error handler and a click
    on the retry button requests nothing. *)
Lemma part002_no_retry_counterexample :
  error_display (Part002.onHeartError sample_document) = Some true /\
  click_retry (Part002.onHeartError sample_document) = [] /\
  click_retry (Part002.onHeartError sample_document) <> loadHeartModel.
Proof. repeat split. discriminate. Qed.

(** * Further properties *)

(** ** Frames of the particle layer *)

Lemma update001_idem (b : Q) (s : SparkPoint) :
  Part001.update b (Part001.update b s) = Part001.update b s.
Proof. reflexivity. Qed.

Lemma update002_idem (b : Q) (s : SparkPoint) :
  Part002.update b (Part002.update b s) = Part002.update b s.
Proof. reflexivity. Qed.

(** Three stores below an index leave the array from that index on, and
    its length, as they were. *)
Lemma drop_write3 (l : list Q) (i : nat) (x y z : Q) :
  drop (i + 3)
    (<[(i + 2)%nat := z]> (<[(i + 1)%nat := y]> (<[i := x]> l)))
  = drop (i + 3) l.
Proof. rewrite !drop_insert_lt by lia. done. Qed.

(** Whatever the cursor and the arrays, a loop that returns has kept the
    sizes of both arrays and everything at and behind its final indices:
    it only writes between the old and the new index. *)
Lemma particleLoop001_tail (b : Q) (sp : list SparkPoint) :
  forall (c : Part001.Cursor) (sp' : list SparkPoint) (c' : Part001.Cursor),
    Part001.particleLoop b sp c = Some (sp', c') ->
    (Part001.posIdx c <= Part001.posIdx c')%nat /\
    (Part001.colorIdx c <= Part001.colorIdx c')%nat /\
    length (Part001.buf_positions c') = length (Part001.buf_positions c) /\
    length (Part001.buf_colors c') = length (Part001.buf_colors c) /\
    drop (Part001.posIdx c') (Part001.buf_positions c')
    = drop (Part001.posIdx c') (Part001.buf_positions c) /\
    drop (Part001.colorIdx c') (Part001.buf_colors c')
    = drop (Part001.colorIdx c') (Part001.buf_colors c).
Proof.
  assert (Hw : forall v k c c1,
    Part001.writeLayer v k c = Some c1 ->
    Part001.posIdx c1 = (Part001.posIdx c + 3)%nat /\
    Part001.colorIdx c1 = (Part001.colorIdx c + 3)%nat /\
    length (Part001.buf_positions c1) = length (Part001.buf_positions c) /\
    length (Part001.buf_colors c1) = length (Part001.buf_colors c) /\
    drop (Part001.posIdx c1) (Part001.buf_positions c1)
    = drop (Part001.posIdx c1) (Part001.buf_positions c) /\
    drop (Part001.colorIdx c1) (Part001.buf_colors c1)
    = drop (Part001.colorIdx c1) (Part001.buf_colors c)).
  { intros [v|] [k|] c c1 H; try discriminate. injection H as <-.
    cbn [Part001.posIdx Part001.colorIdx Part001.buf_positions
         Part001.buf_colors].
    rewrite !length_insert, !drop_write3. done. }
  assert (Hstep : forall (t : bool) v k c c1,
    (if t then Part001.writeLayer v k c else Some c) = Some c1 ->
    (Part001.posIdx c <= Part001.posIdx c1)%nat /\
    (Part001.colorIdx c <= Part001.colorIdx c1)%nat /\
    length (Part001.buf_positions c1) = length (Part001.buf_positions c) /\
    length (Part001.buf_colors c1) = length (Part001.buf_colors c) /\
    drop (Part001.posIdx c1) (Part001.buf_positions c1)
    = drop (Part001.posIdx c1) (Part001.buf_positions c) /\
    drop (Part001.colorIdx c1) (Part001.buf_colors c1)
    = drop (Part001.colorIdx c1) (Part001.buf_colors c)).
  { intros [|] v k c c1 H.
    - apply Hw in H as (-> & -> & ? & ? & ? & ?).
      repeat split; try done; lia.
    - injection H as <-. done. }
  assert (Htrans : forall (l0 l1 l2 : list Q) (n0 n1 n2 : nat),
    (n0 <= n1)%nat -> (n1 <= n2)%nat ->
    drop n1 l1 = drop n1 l0 -> drop n2 l2 = drop n2 l1 ->
    drop n2 l2 = drop n2 l0).
  { intros l0 l1 l2 n0 n1 n2 _ Hn H1 H2. rewrite H2.
    transitivity (drop (n1 + (n2 - n1)) l1); [f_equal; lia|].
    rewrite <- drop_drop, H1, drop_drop. f_equal. lia. }
  induction sp as [|s sp IH]; intros c sp' c' H.
  - injection H as <- <-. done.
  - cbn [Part001.particleLoop] in H.
    destruct (one (Part001.update b s)) as [o1|]; [|discriminate].
    cbn [mbind option_bind] in H.
    destruct (if Part001.nearLayerTest _ _ then _ else _) as [c1|] eqn:E1;
      [|discriminate].
    cbn [mbind option_bind] in H.
    destruct (if Part001.farLayerTest _ _ then _ else _) as [c2|] eqn:E2;
      [|discriminate].
    cbn [mbind option_bind] in H.
    destruct (Part001.particleLoop b sp c2) as [[rest cc]|] eqn:E;
      [|discriminate].
    cbn [mbind option_bind] in H. injection H as <- <-.
    apply Hstep in E1 as (P1 & C1 & LP1 & LC1 & DP1 & DC1).
    apply Hstep in E2 as (P2 & C2 & LP2 & LC2 & DP2 & DC2).
    apply IH in E as (P3 & C3 & LP3 & LC3 & DP3 & DC3).
    split; [lia|]. split; [lia|]. split; [congruence|]. split; [congruence|].
    split.
    + apply (Htrans _ (Part001.buf_positions c2) _
               (Part001.posIdx c) (Part001.posIdx c2)); try done; [lia|].
      apply (Htrans _ (Part001.buf_positions c1) _
               (Part001.posIdx c) (Part001.posIdx c1)); done.
    + apply (Htrans _ (Part001.buf_colors c2) _
               (Part001.colorIdx c) (Part001.colorIdx c2)); try done; [lia|].
      apply (Htrans _ (Part001.buf_colors c1) _
               (Part001.colorIdx c) (Part001.colorIdx c1)); done.
Qed.

(** On a running particle state the visible layers fit in the typed
    arrays. *)
Lemma visible_layers_bound001 (st : HeartAnimation) :
  particles_ready001 st ->
  (length (flat_map spec_positions
             (map (Part001.update (beat st)) (spikes st)))
   <= length (positions st))%nat /\
  (length (flat_map spec_colors
             (map (Part001.update (beat st)) (spikes st)))
   <= length (colors st))%nat.
Proof.
  intros (Hp & Hc & Hn & Hcol).
  destruct (flat_map_layers_length
              (map (Part001.update (beat st)) (spikes st))
              (colored_update001 _ _ Hcol)) as (k & Hk & -> & ->).
  rewrite length_map in Hk. unfold PARTICLE_COUNT_6 in Hp, Hc. lia.
Qed.

(** The whole effect of a frame of [part_001] on a running particle state:
    the submitted buffers are the visible layers of the updated sparks, and
    each typed array holds them in front of what it held before behind
    them. *)
Lemma updateParticles001_full (st : HeartAnimation) :
  particles_ready001 st ->
  Part001.updateParticles st
  = Some (set_particles
            (mkBufferGeometry
               (Some (flat_map spec_positions
                        (map (Part001.update (beat st)) (spikes st))))
               (Some (flat_map spec_colors
                        (map (Part001.update (beat st)) (spikes st)))))
            (map (Part001.update (beat st)) (spikes st))
            (flat_map spec_positions
               (map (Part001.update (beat st)) (spikes st))
             ++ drop (length (flat_map spec_positions
                                (map (Part001.update (beat st)) (spikes st))))
                     (positions st))
            (flat_map spec_colors
               (map (Part001.update (beat st)) (spikes st))
             ++ drop (length (flat_map spec_colors
                                (map (Part001.update (beat st)) (spikes st))))
                     (colors st))
            st).
Proof.
  intros (Hp & Hc & Hn & Hcol). unfold Part001.updateParticles.
  destruct (particleLoop001_spec (beat st) (spikes st) Hcol
              (Part001.mkCursor 0 0 (positions st) (colors st)))
    as (c' & E & X).
  - cbn [Part001.posIdx Part001.buf_positions].
    unfold PARTICLE_COUNT_6 in Hp. lia.
  - cbn [Part001.colorIdx Part001.buf_colors].
    unfold PARTICLE_COUNT_6 in Hc. lia.
  - pose proof (particleLoop001_tail _ _ _ _ _ E)
      as (_ & _ & _ & _ & Dp & Dc).
    rewrite E. destruct X as (Ep & Ec & _ & _ & Etp & Etc).
    cbn [Part001.posIdx Part001.colorIdx Part001.buf_positions
         Part001.buf_colors take app plus] in Etp, Etc, Ep, Ec, Dp, Dc.
    cbn [mbind option_bind].
    rewrite <- (take_drop (Part001.posIdx c') (Part001.buf_positions c'))
      at 2.
    rewrite <- (take_drop (Part001.colorIdx c') (Part001.buf_colors c'))
      at 2.
    rewrite Etp, Etc, Dp, Dc, Ep, Ec. done.
Qed.

(** X1.  For a running particle state of [part_001], a frame submits the
    visible layers of the updated sparks and leaves each typed array holding
    them in front of its old contents from that length on; so two states
    with the same sparks and the same beat submit the same buffers, whatever
    earlier frames left in their arrays. *)
Theorem typed_arrays_leave_no_trace (st1 st2 : HeartAnimation) :
  particles_ready001 st1 -> particles_ready001 st2 ->
  spikes st1 = spikes st2 -> beat st1 = beat st2 ->
  exists r1 r2 ps cs,
    Part001.updateParticles st1 = Some r1 /\
    Part001.updateParticles st2 = Some r2 /\
    geometry r1 = mkBufferGeometry (Some ps) (Some cs) /\
    geometry r2 = mkBufferGeometry (Some ps) (Some cs) /\
    positions r1 = ps ++ drop (length ps) (positions st1) /\
    positions r2 = ps ++ drop (length ps) (positions st2) /\
    colors r1 = cs ++ drop (length cs) (colors st1) /\
    colors r2 = cs ++ drop (length cs) (colors st2).
Proof.
  intros H1 H2 Hs Hb.
  rewrite (updateParticles001_full st1 H1), (updateParticles001_full st2 H2).
  rewrite <- Hs, <- Hb. eexists _, _, _, _.
  repeat split; reflexivity.
Qed.

(** At an unchanged beat, the state a frame of [part_001] returns is
    returned again by the next frame. *)
Lemma updateParticles001_again (st r : HeartAnimation) :
  particles_ready001 st -> Part001.updateParticles st = Some r ->
  particles_ready001 r /\ Part001.updateParticles r = Some r.
Proof.
  intros Hst H. pose proof H as H'.
  rewrite (updateParticles001_full st Hst) in H. injection H as <-.
  match type of H' with
  | _ = Some ?r => assert (Hr : particles_ready001 r)
  end.
  { apply particles_ready001_set; [done | apply birth_update001 | |].
    - destruct (visible_layers_bound001 st Hst) as [Hl _].
      rewrite length_app, length_drop. lia.
    - destruct (visible_layers_bound001 st Hst) as [_ Hl].
      rewrite length_app, length_drop. lia. }
  split; [exact Hr|].
  rewrite (updateParticles001_full _ Hr).
  cbn [spikes beat positions colors set_particles].
  rewrite map_map.
  rewrite (map_ext _ (Part001.update (beat st)))
    by (intros; apply update001_idem).
  rewrite !drop_app_length. reflexivity.
Qed.

Lemma updateParticles002_again (st r : HeartAnimation) :
  particles_ready002 st -> Part002.updateParticles st = Some r ->
  particles_ready002 r /\ Part002.updateParticles r = Some r.
Proof.
  intros Hst H. pose proof H as H'.
  rewrite (updateParticles002_spec st (proj2 Hst)) in H. injection H as <-.
  match type of H' with
  | _ = Some ?r => assert (Hr : particles_ready002 r)
  end.
  { apply particles_ready002_set; [done | apply birth_update002]. }
  split; [exact Hr|].
  rewrite (updateParticles002_spec _ (proj2 Hr)).
  cbn [spikes beat set_particles].
  rewrite map_map.
  rewrite (map_ext _ (Part002.update (beat st)))
    by (intros; apply update002_idem).
  reflexivity.
Qed.

(** X2.  At an unchanged beat a second frame of the particle layer changes
    nothing: in both variants the state [updateParticles] returns is
    returned again, as it is, by the next call.  With a constant beat, as
    in the reduced-motion mode, the sparks stand still. *)
Theorem second_frame_changes_nothing (st r : HeartAnimation) :
  (particles_ready001 st -> Part001.updateParticles st = Some r ->
   Part001.updateParticles r = Some r) /\
  (particles_ready002 st -> Part002.updateParticles st = Some r ->
   Part002.updateParticles r = Some r).
Proof.
  split; intros Hst H.
  - by apply (updateParticles001_again st r).
  - by apply (updateParticles002_again st r).
Qed.

(** X3.  Whatever the state of [part_001], even with more sparks than the
    typed arrays have room for, a frame that returns has kept the sizes of
    both arrays and submits no more numbers than an array holds: stores past
    the end are dropped, nothing grows. *)
Theorem typed_arrays_never_grow (st r : HeartAnimation) :
  Part001.updateParticles st = Some r ->
  length (positions r) = length (positions st) /\
  length (colors r) = length (colors st) /\
  exists ps cs,
    attr_position (geometry r) = Some ps /\
    attr_color (geometry r) = Some cs /\
    (length ps <= length (positions st))%nat /\
    (length cs <= length (colors st))%nat.
Proof.
  unfold Part001.updateParticles. intros H.
  destruct (Part001.particleLoop _ _ _) as [[sp c]|] eqn:E; [|discriminate].
  cbn [mbind option_bind] in H. injection H as <-.
  apply particleLoop001_tail in E as (_ & _ & Lp & Lc & _).
  cbn [Part001.buf_positions Part001.buf_colors] in Lp, Lc.
  cbn [positions colors geometry set_particles attr_position attr_color].
  split; [exact Lp|]. split; [exact Lc|].
  eexists _, _. split; [reflexivity|]. split; [reflexivity|].
  rewrite !length_take. lia.
Qed.

(** ** Construction *)

Lemma pick_elem_of (pal : list Color) (u : Q) (c : Color) :
  pick pal u = Some c -> c ∈ pal.
Proof.
  unfold pick. destruct (0 <=? _)%Z; [|discriminate].
  apply list_elem_of_lookup_2.
Qed.

(** X4.  When the palette is not empty and every [Math.random()] is in
    [0, 1), [initParticles] leaves exactly [PARTICLE_COUNT] sparks, each
    with a jitter in [0, PARTICLE_RANDOM_FACTOR), a colour taken from the
    palette, the origin its sampler drew and no layer position yet; the
    scratch vector holds the last sample. *)
Theorem initParticles_sparks (draws : nat -> Draw) (st : HeartAnimation) :
  palette st <> [] ->
  (forall i, 0 <= random_color (draws i) /\ random_color (draws i) < 1) ->
  (forall i, 0 <= random_rand (draws i) /\ random_rand (draws i) < 1) ->
  Z.of_nat (length (spikes (initParticles draws st))) = PARTICLE_COUNT /\
  Forall (newborn (palette st)) (spikes (initParticles draws st)) /\
  (forall i s, spikes (initParticles draws st) !! i = Some s ->
               pos s = sampled (draws i)) /\
  shared_pos (initParticles draws st)
  = sampled (draws (Z.to_nat PARTICLE_COUNT - 1)%nat).
Proof.
  intros Hpal Hc Hr. split; [apply initParticles_spikes|]. split; [|split].
  - unfold initParticles. cbn [spikes set_spikes].
    apply Forall_map, Forall_forall. intros i _.
    destruct (Hr i) as [Hr0 Hr1].
    destruct (pick_is_Some (palette st) (random_color (draws i)) Hpal)
      as [c Hpick]; [apply Hc ..|].
    unfold newborn. cbn [rand color one two SparkPoint_new].
    split; [unfold PARTICLE_RANDOM_FACTOR; nra|].
    split; [unfold PARTICLE_RANDOM_FACTOR; nra|].
    split; [|done]. exists c. split; [done|]. by apply (pick_elem_of _ _ _ Hpick).
  - intros i s. unfold initParticles. cbn [spikes set_spikes].
    rewrite list_lookup_fmap. intros H.
    destruct (seq 0 (Z.to_nat PARTICLE_COUNT) !! i) as [j|] eqn:Hj;
      [|discriminate].
    apply lookup_seq in Hj as [-> _]. cbn in H. injection H as <-.
    cbn [pos SparkPoint_new]. apply clone_eq.
  - unfold initParticles. cbn [shared_pos set_spikes].
    assert (Hn : exists k, Z.to_nat PARTICLE_COUNT = S k).
    { exists (Z.to_nat (PARTICLE_COUNT - 1)).
      rewrite <- Z2Nat.inj_succ by (by vm_compute). f_equal. }
    destruct Hn as [k ->]. cbn [last_sample]. f_equal. f_equal. lia.
Qed.

(** ** Ranges *)

Lemma spec_noise1_range (sx : SimplexNoise) (p : Vector3) :
  noise_bounded sx ->
  0.5 <= spec_noise1 sx p /\ spec_noise1 sx p <= 2.5.
Proof.
  intros H. unfold spec_noise1.
  destruct (H (vx p) (vy p) (vz p) 0.1). split; lra.
Qed.

Lemma spec_noise2_range (sx : SimplexNoise) (p : Vector3) :
  noise_bounded sx ->
  0 <= spec_noise2 sx p /\ spec_noise2 sx p <= 2.
Proof.
  intros H. unfold spec_noise2.
  destruct (H (vx p * NOISE_FREQUENCY) (vy p * NOISE_FREQUENCY)
              (vz p * NOISE_FREQUENCY) 1). split; lra.
Qed.

Lemma update001_layers (b : Q) (s : SparkPoint) :
  one (Part001.update b s)
  = Some (multiplyScalar (pos s)
            (1.01 + spec_noise1 (sp_simplex s) (pos s)
                    * NOISE_SCALE_AMPLITUDE * b)) /\
  two (Part001.update b s)
  = Some (multiplyScalar (pos s) (spec_far_factor (sp_simplex s) (pos s) b)).
Proof.
  unfold Part001.update, spec_far_factor, spec_noise1, spec_noise2.
  cbn [one two]. by rewrite !Qmult_1_r_eq, !clone_eq.
Qed.

Lemma update002_layers (b : Q) (s : SparkPoint) :
  one (Part002.update b s)
  = Some (multiplyScalar (pos s)
            (1.01 + spec_noise1 (sp_simplex s) (pos s)
                    * NOISE_AMPLITUDE * b)) /\
  two (Part002.update b s)
  = Some (multiplyScalar (pos s) (spec_far_factor (sp_simplex s) (pos s) b)).
Proof.
  unfold Part002.update, spec_far_factor, spec_noise1, spec_noise2.
  cbn [one two]. by rewrite !Qmult_1_r_eq, !clone_eq.
Qed.

(** X5.  With a noise function within [-1, 1] and a beat between 0 and
    [BEAT_MAX_VALUE], an update puts the near position at the origin times
    a factor between 1.01 and 1.29125 in [part_001], between 1.01 and 1.1975
    in [part_002], and the far position at the origin times a factor between
    0.4 and 2 in both: the near layer is always outside the sampled surface
    and no layer is ever mirrored through the centre. *)
Theorem spark_factor_ranges (s : SparkPoint) (b : Q) :
  noise_bounded (sp_simplex s) -> 0 <= b -> b <= BEAT_MAX_VALUE ->
  exists k1 k2 f,
    one (Part001.update b s) = Some (multiplyScalar (pos s) k1) /\
    one (Part002.update b s) = Some (multiplyScalar (pos s) k2) /\
    two (Part001.update b s) = Some (multiplyScalar (pos s) f) /\
    two (Part002.update b s) = Some (multiplyScalar (pos s) f) /\
    (1.01 <= k1 /\ k1 <= 1.29125) /\
    (1.01 <= k2 /\ k2 <= 1.1975) /\
    (0.4 <= f /\ f <= 2).
Proof.
  intros Hn Hb0 Hb1.
  destruct (update001_layers b s) as [H1 H2].
  destruct (update002_layers b s) as [H3 H4].
  eexists _, _, _. split; [exact H1|]. split; [exact H3|].
  split; [exact H2|]. split; [exact H4|].
  destruct (spec_noise1_range _ (pos s) Hn) as [N1 N2].
  destruct (spec_noise2_range _ (pos s) Hn) as [M1 M2].
  unfold spec_far_factor, NOISE_SCALE_AMPLITUDE, NOISE_SCALE, NOISE_AMPLITUDE,
    BEAT_MAX_VALUE in *.
  set (n := spec_noise1 (sp_simplex s) (pos s)) in *.
  set (m := spec_noise2 (sp_simplex s) (pos s)) in *.
  clearbody n m.
  repeat split; nra.
Qed.

(** X6.  Only a thin slab of the heart is ever drawn.  For a spark with a
    jitter in [0, PARTICLE_RANDOM_FACTOR), a beat that is not negative and a
    noise function within [-1, 1], the updated spark contributes to a render
    buffer, in either variant, only if the z of its origin times 1.01 is
    strictly between -0.175 and 0.175. *)
Theorem only_a_slab_is_drawn (s : SparkPoint) (b : Q) :
  noise_bounded (sp_simplex s) -> 0 <= b ->
  0 <= rand s -> rand s < PARTICLE_RANDOM_FACTOR ->
  (spec_positions (Part001.update b s) <> [] ->
   -0.175 < 1.01 * vz (pos s) /\ 1.01 * vz (pos s) < 0.175) /\
  (spec_positions (Part002.update b s) <> [] ->
   -0.175 < 1.01 * vz (pos s) /\ 1.01 * vz (pos s) < 0.175).
Proof.
  intros Hn Hb Hr0 Hr1.
  destruct (spec_noise1_range _ (pos s) Hn) as [N1 N2].
  assert (Hslab : forall k,
    1.01 <= k ->
    in_window 1 (rand s) (vz (pos s) * k) \/
    in_window 2 (rand s) (vz (pos s) * k) ->
    -0.175 < 1.01 * vz (pos s) /\ 1.01 * vz (pos s) < 0.175).
  { intros k Hk. unfold in_window, MAX_Z, RATE_Z, PARTICLE_RANDOM_FACTOR in *.
    intros [[W1 W2]|[W1 W2]]; split; nra. }
  assert (Hany : forall s' o1,
    rand s' = rand s -> one s' = Some o1 -> spec_positions s' <> [] ->
    in_window 1 (rand s) (vz o1) \/ in_window 2 (rand s) (vz o1)).
  { intros s' o1 Hr H1 Hne. unfold spec_positions, spec_layers in Hne.
    rewrite H1, Hr in Hne.
    destruct (decide (in_window 1 (rand s) (vz o1))) as [|N]; [by left|].
    destruct (decide (in_window 2 (rand s) (vz o1))) as [|M]; [by right|].
    rewrite !bool_decide_eq_false_2 in Hne by done. by destruct Hne. }
  split; intros Hne.
  - destruct (update001_layers b s) as [H1 _].
    apply (Hany (Part001.update b s) _ eq_refl H1) in Hne. cbn [vz multiplyScalar] in Hne.
    apply (fun K => Hslab _ K Hne).
    unfold NOISE_SCALE_AMPLITUDE, NOISE_SCALE, NOISE_AMPLITUDE.
    assert (0 <= spec_noise1 (sp_simplex s) (pos s) * b) by nra. lra.
  - destruct (update002_layers b s) as [H1 _].
    apply (Hany (Part002.update b s) _ eq_refl H1) in Hne. cbn [vz multiplyScalar] in Hne.
    apply (fun K => Hslab _ K Hne).
    unfold NOISE_AMPLITUDE.
    assert (0 <= spec_noise1 (sp_simplex s) (pos s) * b) by nra. lra.
Qed.

Lemma scale_vertices_bounded (f : Q -> Q -> Q -> Q) (bound : Q) :
  (forall x y z, 0 <= f x y z /\ f x y z <= bound) ->
  forall (n : nat) (o : list Q),
    length o = (3 * n)%nat ->
    Forall2 (fun v x => Qabs v <= bound * Qabs x) (scale_vertices f o) o.
Proof.
  intros Hf.
  assert (Hone : forall x y z w, Qabs (w * f x y z) <= bound * Qabs w).
  { intros x y z w. destruct (Hf x y z) as [F0 F1].
    rewrite Qabs_Qmult, (Qabs_pos (f x y z)) by done.
    pose proof (Qabs_nonneg w). nra. }
  induction n as [|n IH]; intros o Hn.
  - destruct o; [constructor | discriminate].
  - destruct o as [|x [|y [|z o]]]; try (simpl in Hn; lia).
    cbn [scale_vertices]. do 3 (constructor; [apply Hone|]).
    apply IH. simpl in Hn. lia.
Qed.

Lemma spec_scale_range (sx : SimplexNoise) (time b x y z : Q) :
  noise_bounded sx -> 0 <= b -> b <= BEAT_MAX_VALUE ->
  0 <= spec_scale sx time b x y z /\ spec_scale sx time b x y z <= 0.225.
Proof.
  intros Hn Hb0 Hb1. unfold spec_scale.
  destruct (Hn (x * NOISE_SCALE) (y * NOISE_SCALE) (z * NOISE_SCALE)
              (time * 0.0005)) as [N1 N2].
  unfold NOISE_SCALE, NOISE_AMPLITUDE, BEAT_MAX_VALUE in *.
  match goal with |- context [noise4D sx ?a ?b1 ?c ?d] =>
    set (n := noise4D sx a b1 c d) in * end.
  clearbody n. split; nra.
Qed.

Lemma plain_scale_range (sx : SimplexNoise) (time b x y z : Q) :
  noise_bounded sx -> 0 <= b -> b <= BEAT_MAX_VALUE ->
  0 <= plain_scale sx time b x y z /\ plain_scale sx time b x y z <= 0.15.
Proof.
  intros Hn Hb0 Hb1. unfold plain_scale.
  destruct (Hn (x * NOISE_SCALE) (y * NOISE_SCALE) (z * NOISE_SCALE)
              (time * 0.0005)) as [N1 N2].
  unfold NOISE_SCALE, NOISE_AMPLITUDE, BEAT_MAX_VALUE in *.
  match goal with |- context [noise4D sx ?a ?b1 ?c ?d] =>
    set (n := noise4D sx a b1 c d) in * end.
  clearbody n. split; nra.
Qed.

(** X7.  With a noise function within [-1, 1] and a beat between 0 and
    [BEAT_MAX_VALUE], the displaced mesh stays small and is never turned
    inside out: every coordinate written by [updateHeartGeometry] is at most
    0.225 times the size of its origin coordinate in [part_001], 0.15 times
    in [part_002]. *)
Theorem displaced_mesh_stays_small (st : HeartAnimation) (time : Q) :
  mesh_ready st -> noise_bounded (simplex st) ->
  0 <= beat st -> beat st <= BEAT_MAX_VALUE ->
  exists r1 r2 vs1 vs2 o,
    originHeart st = Some o /\
    Part001.updateHeartGeometry time st = Some r1 /\ heart r1 = Some vs1 /\
    Forall2 (fun v x => Qabs v <= 0.225 * Qabs x) vs1 o /\
    Part002.updateHeartGeometry time st = Some r2 /\ heart r2 = Some vs2 /\
    Forall2 (fun v x => Qabs v <= 0.15 * Qabs x) vs2 o.
Proof.
  intros (vs & o & n & Hvs & Ho & Hlen & Hn) Hnoise Hb0 Hb1.
  eexists _, _, _, _, o. split; [exact Ho|].
  split; [apply (updateHeartGeometry001_eq st vs o n); done|].
  split; [reflexivity|]. split.
  { apply (scale_vertices_bounded _ 0.225) with (n := n); [|done].
    intros x y z. by apply spec_scale_range. }
  split; [apply (updateHeartGeometry002_eq st vs o n); done|].
  split; [reflexivity|].
  apply (scale_vertices_bounded _ 0.15) with (n := n); [|done].
  intros x y z. by apply plain_scale_range.
Qed.

(** ** The loading progress *)

Lemma Math_round_mono (a b : Q) : a <= b -> (Math_round a <= Math_round b)%Z.
Proof. intros H. unfold Math_round. apply Qfloor_resp_le. lra. Qed.

Lemma Math_round_Z (n : Z) : Math_round (inject_Z n) = n.
Proof.
  unfold Math_round. apply Z.le_antisymm.
  - apply Z.lt_succ_r. rewrite Zlt_Qlt.
    eapply Qle_lt_trans; [apply Qfloor_le|].
    unfold Z.succ. rewrite inject_Z_plus. change (inject_Z 1) with 1. lra.
  - rewrite <- (Qfloor_Z n) at 1. apply Qfloor_resp_le. lra.
Qed.

Lemma Math_round_between (lo hi : Z) (q : Q) :
  inject_Z lo <= q -> q <= inject_Z hi ->
  (lo <= Math_round q <= hi)%Z.
Proof.
  intros H1 H2. rewrite <- (Math_round_Z lo), <- (Math_round_Z hi) at 1.
  split; by apply Math_round_mono.
Qed.

(** The bar width [onHeartProgress] computes. *)
Lemma progress_width (loaded total : Q) :
  0 <= loaded -> loaded <= total -> 0 < total ->
  95 <= 95 + inject_Z (Math_round (loaded / total * 100)) * 0.05 /\
  95 + inject_Z (Math_round (loaded / total * 100)) * 0.05 <= 100.
Proof.
  intros H0 H1 Ht.
  assert (Hq : 0 <= loaded / total /\ loaded / total <= 1).
  { split.
    - apply Qle_shift_div_l; [done | lra].
    - apply Qle_shift_div_r; [done | lra]. }
  destruct (Math_round_between 0 100 (loaded / total * 100)) as [P0 P1].
  { change (inject_Z 0) with 0. lra. }
  { change (inject_Z 100) with 100. lra. }
  rewrite Zle_Qle in P0, P1.
  change (inject_Z 0) with 0 in P0. change (inject_Z 100) with 100 in P1.
  split; lra.
Qed.

(** X8.  While a model of known size loads ([0 <= loaded <= total],
    [0 < total]), [onHeartProgress] shows a bar width and a text percentage
    between 95 and 100, and neither goes down when more has been loaded. *)
Theorem progress_between_95_and_100 (loaded1 loaded2 total : Q)
    (ui : LoadingUI) (w0 : Q) (t0 : Z) :
  progress_bar ui = Some w0 -> loading_text ui = Some t0 ->
  0 <= loaded1 -> loaded1 <= loaded2 -> loaded2 <= total -> 0 < total ->
  exists w1 w2 t1 t2,
    Part001.onHeartProgress loaded1 total ui
    = Some (mkLoadingUI (Some w1) (Some t1)) /\
    Part001.onHeartProgress loaded2 total ui
    = Some (mkLoadingUI (Some w2) (Some t2)) /\
    95 <= w1 /\ w1 <= w2 /\ w2 <= 100 /\
    (95 <= t1 <= t2)%Z /\ (t2 <= 100)%Z.
Proof.
  intros Hbar Htext H0 H12 H2t Ht.
  unfold Part001.onHeartProgress, Part001.updateLoadingProgress.
  assert (Hne : Qeq_bool total 0 = false).
  { destruct (Qeq_bool total 0) eqn:E; [|done].
    apply Qeq_bool_iff in E. lra. }
  rewrite Hne, Hbar, Htext. eexists _, _, _, _.
  split; [reflexivity|]. split; [reflexivity|].
  destruct (progress_width loaded1 total) as [A1 A2]; [lra ..|].
  destruct (progress_width loaded2 total) as [B1 B2]; [lra ..|].
  assert (Hmono : loaded1 / total * 100 <= loaded2 / total * 100).
  { assert (loaded1 / total <= loaded2 / total); [|lra].
    apply Qmult_le_compat_r; [done|]. apply Qlt_le_weak, Qinv_lt_0_compat, Ht. }
  apply Math_round_mono in Hmono. pose proof Hmono as Hmono'.
  rewrite Zle_Qle in Hmono'.
  assert (Hw : 95 + inject_Z (Math_round (loaded1 / total * 100)) * 0.05
               <= 95 + inject_Z (Math_round (loaded2 / total * 100)) * 0.05)
    by lra.
  split; [done|]. split; [done|]. split; [done|].
  split; [split|].
  - apply (Math_round_between 95 100); [exact A1 | exact A2].
  - by apply Math_round_mono.
  - apply (Math_round_between 95 100); [exact B1 | exact B2].
Qed.

(** ** The keyboard *)

Lemma Qgtb_false (a b : Q) : Qgtb a b = false <-> a <= b.
Proof.
  unfold Qgtb. rewrite Qle_alt.
  destruct (a ?= b); intuition congruence.
Qed.

Lemma Math_min_range (a b lo : Q) :
  lo <= a -> lo <= b -> lo <= Math_min a b /\ Math_min a b <= a.
Proof.
  intros Ha Hb. unfold Math_min. destruct (Qgtb a b) eqn:E.
  - apply Qgtb_true in E. split; lra.
  - split; lra.
Qed.

Lemma Math_max_range (a b hi : Q) :
  a <= hi -> b <= hi -> a <= Math_max a b /\ Math_max a b <= hi.
Proof.
  intros Ha Hb. unfold Math_max. destruct (Qgtb a b) eqn:E.
  - split; lra.
  - apply Qgtb_false in E. split; lra.
Qed.


Ltac key_cases :=
  repeat match goal with
         | |- context [String.eqb ?k ?s] =>
             destruct (String.eqb k s); cbn [orb]; cbv iota
         end.

Lemma onKeyDown001_volume (key : string) (p : Page) :
  volume_in_range p -> volume_in_range (Part001.onKeyDown key p).1.
Proof.
  intros Hp. unfold Part001.onKeyDown, Part001.toggleControlsVisibility.
  key_cases; try exact Hp; intros a' Ha';
    repeat match type of Ha' with
           | context [match ?x with _ => _ end] => destruct x eqn:?
           end;
    cbn [fst audio Part001.set_audio] in Ha'; simplify_eq; try (by apply Hp);
    match goal with
    | Ha : audio p = Some ?a |- _ => destruct (Hp a Ha) as [V0 V1]
    end;
    cbn [volume]; try (split; assumption);
    match goal with
    | |- context [Math_min ?x ?y] =>
        destruct (Math_min_range x y 0) as [M0 M1]; [lra | lra |]
    | |- context [Math_max ?x ?y] =>
        destruct (Math_max_range x y 1) as [M0 M1]; [lra | lra |]
    end;
    split; lra.
Qed.

(** What a key press may change of the engine: nothing but [isAnimating]. *)
Lemma onKeyDown001_engine (key : string) (p : Page) :
  app (Part001.onKeyDown key p).1
  = set_isAnimating (isAnimating (app (Part001.onKeyDown key p).1)) (app p)
  /\ (audio (Part001.onKeyDown key p).1 = None <-> audio p = None).
Proof.
  assert (Heta : app p = set_isAnimating (isAnimating (app p)) (app p))
    by (by destruct (app p)).
  unfold Part001.onKeyDown, Part001.toggleControlsVisibility.
  key_cases;
    repeat match goal with
           | |- context [match ?x with _ => _ end] => destruct x eqn:?
           end;
    cbn [fst app audio Part001.set_audio];
    (split; [first [exact Heta | reflexivity] | naive_solver]).
Qed.

Lemma onKeyDown002_engine (key : string) (p : Page) :
  app (Part002.onKeyDown key p).1
  = set_isAnimating (isAnimating (app (Part002.onKeyDown key p).1)) (app p)
  /\ audio (Part002.onKeyDown key p).1 = audio p.
Proof.
  assert (Heta : app p = set_isAnimating (isAnimating (app p)) (app p))
    by (by destruct (app p)).
  unfold Part002.onKeyDown.
  key_cases; cbn [fst app audio];
    (split; [first [exact Heta | reflexivity] | reflexivity]).
Qed.

(** X9.  Whatever keys are pressed in [part_001], in whatever order, the
    volume of the audio element stays within [0, 1] once it is there, so no
    write of [audio.volume] is ever out of the range the element accepts. *)
Theorem volume_stays_in_range (keys : list string) (p : Page) :
  (forall a, audio p = Some a -> 0 <= volume a /\ volume a <= 1) ->
  forall a,
    audio (foldl (fun q key => (Part001.onKeyDown key q).1) p keys) = Some a ->
    0 <= volume a /\ volume a <= 1.
Proof.
  revert p. induction keys as [|key keys IH]; intros p Hp; [exact Hp|].
  cbn [foldl]. apply IH. by apply onKeyDown001_volume.
Qed.

(** X10.  No sequence of key presses, in either variant, touches the
    engine beyond switching [isAnimating]: the origin copy, the sparks, the
    buffers, the beat and the noise are those of the start. *)
Theorem keys_leave_the_engine_alone (keys : list string) (p : Page) :
  (exists a,
     app (foldl (fun q key => (Part001.onKeyDown key q).1) p keys)
     = set_isAnimating a (app p)) /\
  (exists a,
     app (foldl (fun q key => (Part002.onKeyDown key q).1) p keys)
     = set_isAnimating a (app p)).
Proof.
  split.
  - revert p. induction keys as [|key keys IH]; intros p.
    + exists (isAnimating (app p)). cbn [foldl]. by destruct (app p).
    + cbn [foldl]. destruct (IH (Part001.onKeyDown key p).1) as [a ->].
      exists a. pose proof (proj1 (onKeyDown001_engine key p)) as E.
      rewrite E. reflexivity.
  - revert p. induction keys as [|key keys IH]; intros p.
    + exists (isAnimating (app p)). cbn [foldl]. by destruct (app p).
    + cbn [foldl]. destruct (IH (Part002.onKeyDown key p).1) as [a ->].
      exists a. pose proof (proj1 (onKeyDown002_engine key p)) as E.
      rewrite E. reflexivity.
Qed.

(** ** The animation loop *)

(** X11.  The loop of [startAnimation] never renders two frames less than
    [FRAME_SKIP_THRESHOLD] milliseconds apart: whatever the timestamps of the
    display refreshes, every call of [render] comes at least that long after
    the one before it, and the first one that long after the start. *)
Theorem rendered_frames_are_spaced (frames : list (bool * Q))
    (l : Part001.Loop) :
  spaced FRAME_SKIP_THRESHOLD (Part001.lastRenderTime l)
    (Part001.run_animate frames l).1.
Proof.
  revert l. induction frames as [|[hidden now] frames IH]; intros l; [done|].
  cbn [Part001.run_animate]. unfold Part001.animate.
  destruct (negb (isAnimating (Part001.loop_app l))); [done|].
  destruct (Qgtb _ _) eqn:E; [apply IH|].
  apply Qgtb_false in E.
  assert (Hgap : Part001.lastRenderTime l + FRAME_SKIP_THRESHOLD <= now)
    by lra.
  destruct (Part001.render hidden now (Part001.loop_app l)) as [st|].
  - specialize (IH (Part001.mkLoop st now (Part001.loop_doc l))).
    destruct (Part001.run_animate frames _) as [ts r]. by split.
  - by split.
Qed.


(** ** The error display *)

(** X13.  A later [Utils.showError] with a retry callback takes over the
    whole display, whatever was shown before: message, visibility and click
    handler are those of the later call.  So a repeated load failure leaves
    the page as the first did, and after a load failure followed by a global
    error the retry button reloads the page.  A later call without callback
    hides the button but leaves the handler of the earlier call on it. *)
Theorem showError_last_wins (doc : Document) (m1 m2 : string)
    (cb1 : option Callback) (cb2 : Callback) :
  Part001.showError m2 (Some cb2) (Part001.showError m1 cb1 doc)
  = Part001.showError m2 (Some cb2) doc /\
  Part001.onHeartError (Part001.onHeartError doc) = Part001.onHeartError doc /\
  Part001.onGlobalError (Part001.onHeartError doc) = Part001.onGlobalError doc /\
  Part002.onHeartError (Part002.onHeartError doc) = Part002.onHeartError doc /\
  (is_Some (error_display doc) -> is_Some (error_message doc) ->
   is_Some (error_retry doc) ->
   click_retry (Part001.onGlobalError (Part001.onHeartError doc))
   = [LocationReload] /\
   error_retry (Part001.showError m2 None (Part001.showError m1 (Some cb2) doc))
   = Some (mkRetryButton (Some cb2) "none") /\
   error_display (Part001.hideError (Part001.onHeartError doc)) = Some true /\
   click_retry (Part001.hideError (Part001.onHeartError doc))
   = loadHeartModel).
Proof.
  assert (Hlast : forall m1 m2 cb1 cb2,
    Part001.showError m2 (Some cb2) (Part001.showError m1 cb1 doc)
    = Part001.showError m2 (Some cb2) doc).
  { intros n1 n2 c1 c2. unfold Part001.showError.
    destruct doc as [[d|] [m|] [r|] l], c1; reflexivity. }
  split; [apply Hlast|]. split; [apply Hlast|]. split; [apply Hlast|].
  split.
  - unfold Part002.onHeartError, Part002.showError.
    by destruct doc as [d m r [l|]].
  - intros [d Hd] [m Hm] [r Hr].
    unfold Part001.onGlobalError, Part001.onHeartError, Part001.hideError,
      Part001.showError, click_retry.
    rewrite Hd, Hm, Hr. cbn. done.
Qed.

(** ** Debouncing and throttling *)

Lemma debounced_ok_call {A} (wait now : Q) (args : A)
    (found : option (Q * A)) (d : Utils.Debounced) :
  debounced_ok wait found d ->
  debounced_ok wait (Some (now, args)) (Utils.executedFunction wait now args d).
Proof.
  intros Hd. right. exists (Utils.next_id d), now, args.
  split; [done|]. split; [|done].
  unfold Utils.executedFunction. cbn [Utils.pending].
  destruct Hd as [-> | (id & t0 & a & -> & -> & _)].
  - destruct (Utils.timeout d); cbn [Utils.clearTimeout];
      by rewrite ?delete_empty, insert_empty.
  - cbn [Utils.clearTimeout]. by rewrite delete_singleton_eq, insert_empty.
Qed.

Lemma debounced_ok_later {A} (wait now : Q) (id : nat)
    (found : option (Q * A)) (d d' : Utils.Debounced) (args : A) :
  debounced_ok wait found d ->
  Utils.later now id d = Some (args, d') ->
  Utils.pending d' = ∅ /\
  exists t0, found = Some (t0, args) /\ t0 + wait <= now.
Proof.
  intros Hd H. unfold Utils.later in H.
  destruct Hd as [Hd | (i & t0 & a & Ht & Hp & Hf)].
  - by rewrite Hd, lookup_empty in H.
  - rewrite Hp, Ht in H.
    destruct (decide (i = id)) as [->|Hne].
    + rewrite lookup_singleton_eq in H.
      destruct (Qle_bool (t0 + wait) now) eqn:E; [|discriminate].
      injection H as <- <-. cbn [Utils.pending Utils.clearTimeout].
      rewrite delete_singleton_eq, delete_empty. split; [done|].
      exists t0. split; [done|]. by apply Qle_bool_iff.
    + by rewrite lookup_singleton_ne in H.
Qed.

Lemma run_debounced_ok {A} (wait : Q) (trace : list (Utils.Event (A := A))) :
  forall (found : option (Q * A)) (d : Utils.Debounced),
    debounced_ok wait found d ->
    debounced_ok wait (Utils.last_call trace found)
      (Utils.run_debounced wait trace d).1.
Proof.
  induction trace as [|[now args|now id] trace IH]; intros found d Hd.
  - exact Hd.
  - cbn [Utils.run_debounced Utils.last_call].
    apply IH. by apply (debounced_ok_call wait now args found).
  - cbn [Utils.run_debounced Utils.last_call].
    destruct (Utils.later now id d) as [[args d']|] eqn:E.
    + destruct (debounced_ok_later _ _ _ _ _ _ _ Hd E) as [Hp _].
      specialize (IH found d' (or_introl Hp)).
      by destruct (Utils.run_debounced wait trace d').
    + by apply IH.
Qed.

(** X14.  After any history of calls and timer expiries, a function made
    by [Utils.debounce] has at most one timer pending; and whenever a timer
    then runs its callback, [func] gets the arguments of the most recent
    call, at least [wait] after that call, and no timer is left pending. *)
Theorem debounce_waits_for_the_last_call {A} (wait : Q)
    (trace : list (Utils.Event (A := A))) (now : Q) (id : nat) (args : A)
    (d' : Utils.Debounced) :
  (size (Utils.pending (Utils.run_debounced wait trace Utils.debounce).1)
   <= 1)%nat /\
  (Utils.later now id (Utils.run_debounced wait trace Utils.debounce).1
   = Some (args, d') ->
   Utils.pending d' = ∅ /\
   exists t0,
     Utils.last_call trace None = Some (t0, args) /\ t0 + wait <= now).
Proof.
  pose proof (run_debounced_ok wait trace None Utils.debounce
                (or_introl eq_refl)) as Hd.
  split.
  - destruct Hd as [-> | (i & t0 & a & _ & -> & _)].
    + rewrite map_size_empty. lia.
    + rewrite map_size_singleton. lia.
  - intros H. by apply (debounced_ok_later _ _ _ _ _ _ _ Hd H).
Qed.

Lemma spaced_after_later (gap now now' : Q) (last : option Q) (ts : list Q) :
  spaced_after gap (Some now') ts -> now <= now' ->
  (forall l, last = Some l -> l + gap <= now) ->
  spaced_after gap last (now' :: ts).
Proof.
  intros Hs Hle Hl. destruct last as [l|]; cbn in *; [|done].
  split; [|done]. specialize (Hl l eq_refl). lra.
Qed.

Lemma run_throttled_spaced {A} (limit : Q)
    (trace : list (Utils.Event (A := A))) :
  forall (now : Q) (last : option Q) (t : Utils.Throttled),
    throttled_ok limit now last t ->
    Utils.clock_ordered now trace ->
    spaced_after limit last (Utils.run_throttled limit trace t).2.
Proof.
  induction trace as [|[now' args|now' id] trace IH]; intros now last t Ht Hc.
  - by destruct last.
  - destruct Hc as [Hle Hc]. cbn [Utils.event_time] in Hle, Hc.
    cbn [Utils.run_throttled]. unfold Utils.throttled.
    destruct Ht as [(Hf & Hr & Hl) | (Hf & i & l & -> & Hr)]; rewrite Hf;
      cbn [negb].
    + specialize (IH now' (Some now')
                    (Utils.mkThrottled true
                       (<[Utils.next_reset t := now' + limit]> (Utils.resets t))
                       (S (Utils.next_reset t)))).
      destruct (Utils.run_throttled limit trace _) as [t'' log].
      cbn [snd] in *. apply (spaced_after_later _ now); try done.
      apply IH; [|done]. right. split; [done|].
      exists (Utils.next_reset t), now'. split; [done|].
      cbn [Utils.resets]. by rewrite Hr, insert_empty.
    + specialize (IH now' (Some l) t).
      destruct (Utils.run_throttled limit trace t) as [t'' log].
      cbn [snd] in *. apply IH; [|done]. right. split; [done|]. by exists i, l.
  - destruct Hc as [Hle Hc]. cbn [Utils.event_time] in Hle, Hc.
    cbn [Utils.run_throttled]. unfold Utils.reset.
    destruct Ht as [(Hf & Hr & Hl) | (Hf & i & l & -> & Hr)]; rewrite Hr.
    + rewrite lookup_empty. apply (IH now'); [|done].
      left. split; [done|]. split; [done|].
      intros l Hlast. specialize (Hl l Hlast). lra.
    + destruct (decide (i = id)) as [->|Hne].
      * rewrite lookup_singleton_eq.
        destruct (Qle_bool (l + limit) now') eqn:E.
        -- apply (IH now'); [|done]. left. cbn [Utils.inThrottle Utils.resets].
           split; [done|]. split; [by rewrite delete_singleton_eq|].
           intros l' [= <-]. by apply Qle_bool_iff.
        -- apply (IH now'); [|done]. right. split; [done|]. by exists id, l.
      * rewrite lookup_singleton_ne by done.
        apply (IH now'); [|done]. right. split; [done|]. by exists i, l.
Qed.

(** X15.  With a clock that never runs backwards, a function made by
    [Utils.throttle] calls [func] at times that are at least [limit] apart,
    whatever the calls and timer expiries: a call made while the flag is up
    is dropped, not queued. *)
Theorem throttle_spaces_the_calls {A} (limit start : Q)
    (trace : list (Utils.Event (A := A))) :
  Utils.clock_ordered start trace ->
  spaced_after limit None (Utils.run_throttled limit trace Utils.throttle).2.
Proof.
  intros Hc. apply (run_throttled_spaced limit trace start); [|done].
  left. by repeat split.
Qed.

(** ** The service worker *)

(** After the stores of [addAll], a URL among them answers with the
    response fetched for it. *)
Lemma put_all_lookup {R} (net : string -> option R)
    (entries : list (string * R)) (c : gmap string R) (url : string) (r : R) :
  Forall (fun e => net e.1 = Some e.2) entries ->
  net url = Some r -> url ∈ entries.*1 ->
  ServiceWorker.put_all entries c !! url = Some r.
Proof.
  intros Hall Hr. revert c.
  induction entries as [|[u v] entries IH] using rev_ind; intros c Hin.
  - by apply elem_of_nil in Hin.
  - unfold ServiceWorker.put_all. rewrite foldl_app. cbn [foldl fst snd].
    apply Forall_app in Hall as [Hall Hlast].
    apply Forall_cons in Hlast as [Hlast _]. cbn [fst snd] in Hlast.
    destruct (decide (u = url)) as [->|Hne].
    + rewrite lookup_insert_eq. congruence.
    + rewrite lookup_insert_ne by done. apply (IH Hall).
      rewrite fmap_app in Hin. apply elem_of_app in Hin as [Hin|Hin]; [done|].
      apply list_elem_of_singleton in Hin. cbn in Hin. congruence.
Qed.

Lemma fetch_all_entries {R} (net : string -> option R) (urls : list string)
    (entries : list (string * R)) :
  ServiceWorker.fetch_all net urls = Some entries ->
  Forall (fun e => net e.1 = Some e.2) entries /\ entries.*1 = urls.
Proof.
  unfold ServiceWorker.fetch_all. rewrite mapM_Some. intros H.
  induction H as [|u [u' v] urls entries Hu _ [IH1 IH2]].
  - by split.
  - destruct (net u) as [r|] eqn:E; [|discriminate]. injection Hu as <- <-.
    split; [by constructor|]. cbn. by f_equal.
Qed.

(** Once activated, the cache [with_cache] has opened and changed is the
    first one left. *)
Lemma activate_with_cache {R} (f : gmap string R -> gmap string R)
    (cs : ServiceWorker.CacheStorage) :
  exists c rest,
    ServiceWorker.activate
      (ServiceWorker.with_cache ServiceWorker.CACHE_NAME f cs)
    = (ServiceWorker.CACHE_NAME, f c) :: rest.
Proof.
  unfold ServiceWorker.activate, ServiceWorker.CacheStorage in *.
  induction cs as [|[n c] cs (c' & rest & IH)]; cbn [ServiceWorker.with_cache].
  - exists ∅, []. rewrite (filter_cons (fun nc : string * gmap string R => nc.1 = ServiceWorker.CACHE_NAME)), filter_nil.
    by rewrite decide_True.
  - destruct (decide (n = ServiceWorker.CACHE_NAME)) as [->|Hne].
    + exists c, (filter (fun nc => nc.1 = ServiceWorker.CACHE_NAME) cs).
      rewrite (filter_cons (fun nc : string * gmap string R => nc.1 = ServiceWorker.CACHE_NAME)).
      by rewrite decide_True.
    + exists c', rest.
      rewrite (filter_cons (fun nc : string * gmap string R => nc.1 = ServiceWorker.CACHE_NAME)).
      by rewrite decide_False.
Qed.

(** X16.  Once the service worker has installed and activated, every URL of
    [urlsToCache] is answered from the new cache with the response fetched
    at the installation, whatever caches existed before and whatever the
    network does or fails to do afterwards; and only caches named
    [CACHE_NAME] are left. *)
Theorem precached_urls_are_served_offline {R} (net later_net : string -> option R)
    (cs : ServiceWorker.CacheStorage) (url : string) (r : R) :
  (ServiceWorker.install net cs).2 = true ->
  url ∈ ServiceWorker.urlsToCache -> net url = Some r ->
  ServiceWorker.onFetch later_net url
    (ServiceWorker.activate (ServiceWorker.install net cs).1)
  = Some r /\
  Forall (fun nc => nc.1 = ServiceWorker.CACHE_NAME)
    (ServiceWorker.activate (ServiceWorker.install net cs).1).
Proof.
  intros Hok Hurl Hr. split.
  - unfold ServiceWorker.install in *.
    destruct (ServiceWorker.fetch_all net ServiceWorker.urlsToCache)
      as [entries|] eqn:E; [|discriminate].
    apply fetch_all_entries in E as [Hall Hfst]. cbn [fst].
    destruct (activate_with_cache (ServiceWorker.put_all entries) cs)
      as (c & rest & ->).
    unfold ServiceWorker.onFetch. cbn [ServiceWorker.caches_match].
    rewrite (put_all_lookup net entries c url r); try done.
    by rewrite Hfst.
  - unfold ServiceWorker.activate, ServiceWorker.CacheStorage.
    apply Forall_forall. intros nc Hin.
    by apply list_elem_of_filter in Hin as [H _].
Qed.

(** ** A frame rendered again *)

Lemma updateParticles001_set_heart (h : option (list Q)) (st : HeartAnimation) :
  Part001.updateParticles (set_heart h st)
  = set_heart h <$> Part001.updateParticles st.
Proof.
  unfold Part001.updateParticles. cbn [beat spikes positions colors set_heart].
  by destruct (Part001.particleLoop _ _ _) as [[sp c]|].
Qed.

Lemma updateParticles002_set_heart (h : option (list Q)) (st : HeartAnimation) :
  Part002.updateParticles (set_heart h st)
  = set_heart h <$> Part002.updateParticles st.
Proof.
  unfold Part002.updateParticles. cbn [beat spikes set_heart].
  by destruct (Part002.particleLoop _ _ _ _) as [[sp [ps cs]]|].
Qed.

(** X17.  A frame rendered again at the same time and the same beat leaves
    a running application exactly as the first rendering left it, in both
    variants: the displaced mesh and the layers of the sparks are computed
    from the origins alone, nothing is accumulated from frame to frame. *)
Theorem rendering_again_changes_nothing (hidden : bool) (time : Q)
    (st r : HeartAnimation) :
  (running001 st -> Part001.render hidden time st = Some r ->
   Part001.render hidden time r = Some r) /\
  (running002 st -> Part002.render time st = Some r ->
   Part002.render time r = Some r).
Proof.
  split.
  - intros [Hp Hm] H. unfold Part001.render in *.
    destruct (negb (isAnimating st) || _) eqn:G;
      [injection H as <-; by rewrite G|].
    destruct hidden; [injection H as <-; by rewrite G|].
    destruct (Part001.updateParticles st) as [st1|] eqn:E; [|discriminate].
    cbn [mbind option_bind] in H.
    destruct (updateParticles001_again st st1 Hp E) as [Hp1 E1].
    pose proof (updateParticles001_frame _ _ E) as [F Hh].
    assert (Hm1 : mesh_ready st1).
    { destruct Hm as (vs & o & n & Hvs & Ho & Hl & Hn).
      exists vs, o, n. destruct F as (Fo & _). rewrite Hh, Fo. done. }
    destruct (mesh_ready_step Part001.updateHeartGeometry spec_scale
                updateHeartGeometry001_eq st1 time Hm1)
      as (o & Ho & Hstep & Hlen & Hm').
    rewrite Hstep in H. injection H as <-.
    apply orb_false_iff in G as [Ga _]. destruct F as (_ & _ & _ & _ & _ & _ & Fa).
    cbn [isAnimating heart set_heart]. rewrite Fa, Ga. cbn [orb negb].
    rewrite bool_decide_eq_true_2 by eauto. cbn [negb].
    rewrite updateParticles001_set_heart, E1. cbn [fmap option_fmap option_map mbind option_bind].
    destruct (mesh_ready_step Part001.updateHeartGeometry spec_scale
                updateHeartGeometry001_eq _ time Hm')
      as (o' & Ho' & -> & _).
    cbn [originHeart set_heart] in Ho'. rewrite Ho in Ho'. injection Ho' as <-.
    reflexivity.
  - intros [Hp Hm] H. unfold Part002.render in *.
    destruct (negb (isAnimating st) || _) eqn:G;
      [injection H as <-; by rewrite G|].
    destruct (Part002.updateParticles st) as [st1|] eqn:E; [|discriminate].
    cbn [mbind option_bind] in H.
    destruct (updateParticles002_again st st1 Hp E) as [Hp1 E1].
    pose proof (updateParticles002_frame _ _ E) as [F Hh].
    assert (Hm1 : mesh_ready st1).
    { destruct Hm as (vs & o & n & Hvs & Ho & Hl & Hn).
      exists vs, o, n. destruct F as (Fo & _). rewrite Hh, Fo. done. }
    destruct (mesh_ready_step Part002.updateHeartGeometry plain_scale
                updateHeartGeometry002_eq st1 time Hm1)
      as (o & Ho & Hstep & Hlen & Hm').
    rewrite Hstep in H. injection H as <-.
    apply orb_false_iff in G as [Ga _]. destruct F as (_ & _ & _ & _ & _ & _ & Fa).
    cbn [isAnimating heart set_heart]. rewrite Fa, Ga. cbn [orb negb].
    rewrite bool_decide_eq_true_2 by eauto. cbn [negb].
    rewrite updateParticles002_set_heart, E1. cbn [fmap option_fmap option_map mbind option_bind].
    destruct (mesh_ready_step Part002.updateHeartGeometry plain_scale
                updateHeartGeometry002_eq _ time Hm')
      as (o' & Ho' & -> & _).
    cbn [originHeart set_heart] in Ho'. rewrite Ho in Ho'. injection Ho' as <-.
    reflexivity.
Qed.

(** ** The samples of the further properties *)

Lemma sample001_used_ready : particles_ready001 sample001_used.
Proof.
  unfold particles_ready001, sample001_used. cbn [positions colors spikes].
  rewrite !length_replicate, Z2Nat.id by (by vm_compute).
  split; [done | split; [done | split; [by vm_compute|]]].
  apply sample_sparks_colored.
Qed.

Lemma sample_frame001_eq :
  Part001.updateParticles sample001 = Some sample_frame001.
Proof.
  unfold sample_frame001.
  by rewrite (updateParticles001_full sample001 (proj1 sample001_running)).
Qed.

Lemma sample_frame002_eq :
  Part002.updateParticles sample002 = Some sample_frame002.
Proof.
  unfold sample_frame002.
  by rewrite (updateParticles002_spec sample002
                (proj2 (proj1 sample002_running))).
Qed.

Lemma sample_render001_eq :
  Part001.render false 1000 sample001 = Some sample_render001.
Proof.
  unfold sample_render001.
  destruct (render001_running false 1000 sample001 sample001_running)
    as (st & -> & _). reflexivity.
Qed.

Lemma sample_render002_eq :
  Part002.render 1000 sample002 = Some sample_render002.
Proof.
  unfold sample_render002.
  destruct (render002_running 1000 sample002 sample002_running)
    as (st & -> & _). reflexivity.
Qed.

Lemma flat_noise_bounded : noise_bounded flat_noise.
Proof. intros x y z w. cbn. split; lra. Qed.

Lemma sample_draws_in_range (i : nat) :
  (0 <= random_color (sample_draws i) /\ random_color (sample_draws i) < 1) /\
  (0 <= random_rand (sample_draws i) /\ random_rand (sample_draws i) < 1).
Proof. destruct i as [|[|i]]; cbn; repeat split; lra. Qed.

Lemma typed_arrays_leave_no_trace_witness :
  exists r1 r2 ps cs,
    Part001.updateParticles sample001 = Some r1 /\
    Part001.updateParticles sample001_used = Some r2 /\
    geometry r1 = mkBufferGeometry (Some ps) (Some cs) /\
    geometry r2 = mkBufferGeometry (Some ps) (Some cs) /\
    positions r1 = ps ++ drop (length ps) (positions sample001) /\
    positions r2 = ps ++ drop (length ps) (positions sample001_used) /\
    colors r1 = cs ++ drop (length cs) (colors sample001) /\
    colors r2 = cs ++ drop (length cs) (colors sample001_used).
Proof.
  apply (typed_arrays_leave_no_trace sample001 sample001_used).
  - exact (proj1 sample001_running).
  - exact sample001_used_ready.
  - reflexivity.
  - reflexivity.
Defined.

Lemma second_frame_changes_nothing_witness :
  Part001.updateParticles sample_frame001 = Some sample_frame001 /\
  Part002.updateParticles sample_frame002 = Some sample_frame002.
Proof.
  split.
  - apply (proj1 (second_frame_changes_nothing sample001 sample_frame001)).
    + exact (proj1 sample001_running).
    + exact sample_frame001_eq.
  - apply (proj2 (second_frame_changes_nothing sample002 sample_frame002)).
    + exact (proj1 sample002_running).
    + exact sample_frame002_eq.
Defined.

Lemma typed_arrays_never_grow_witness :
  length (positions sample_overfull) = length (positions sample002) /\
  length (colors sample_overfull) = length (colors sample002) /\
  exists ps cs,
    attr_position (geometry sample_overfull) = Some ps /\
    attr_color (geometry sample_overfull) = Some cs /\
    (length ps <= length (positions sample002))%nat /\
    (length cs <= length (colors sample002))%nat.
Proof.
  apply (typed_arrays_never_grow sample002 sample_overfull).
  vm_compute. reflexivity.
Defined.

Lemma initParticles_sparks_witness :
  Z.of_nat (length (spikes (initParticles sample_draws sample002)))
  = PARTICLE_COUNT /\
  Forall (newborn (palette sample002))
    (spikes (initParticles sample_draws sample002)) /\
  (forall i s, spikes (initParticles sample_draws sample002) !! i = Some s ->
               pos s = sampled (sample_draws i)) /\
  shared_pos (initParticles sample_draws sample002)
  = sampled (sample_draws (Z.to_nat PARTICLE_COUNT - 1)%nat).
Proof.
  apply (initParticles_sparks sample_draws sample002).
  - discriminate.
  - intros i. apply sample_draws_in_range.
  - intros i. apply sample_draws_in_range.
Defined.

Lemma spark_factor_ranges_witness :
  exists k1 k2 f,
    one (Part001.update 0.5 sample_spark)
    = Some (multiplyScalar (pos sample_spark) k1) /\
    one (Part002.update 0.5 sample_spark)
    = Some (multiplyScalar (pos sample_spark) k2) /\
    two (Part001.update 0.5 sample_spark)
    = Some (multiplyScalar (pos sample_spark) f) /\
    two (Part002.update 0.5 sample_spark)
    = Some (multiplyScalar (pos sample_spark) f) /\
    (1.01 <= k1 /\ k1 <= 1.29125) /\
    (1.01 <= k2 /\ k2 <= 1.1975) /\
    (0.4 <= f /\ f <= 2).
Proof.
  apply (spark_factor_ranges sample_spark 0.5).
  - exact flat_noise_bounded.
  - vm_compute. discriminate.
  - vm_compute. discriminate.
Defined.

Lemma only_a_slab_is_drawn_witness :
  (spec_positions (Part001.update 0.5 sample_spark) <> [] ->
   -0.175 < 1.01 * vz (pos sample_spark) /\
   1.01 * vz (pos sample_spark) < 0.175) /\
  (spec_positions (Part002.update 0.5 sample_spark) <> [] ->
   -0.175 < 1.01 * vz (pos sample_spark) /\
   1.01 * vz (pos sample_spark) < 0.175).
Proof.
  apply (only_a_slab_is_drawn sample_spark 0.5).
  - exact flat_noise_bounded.
  - vm_compute. discriminate.
  - vm_compute. discriminate.
  - vm_compute. reflexivity.
Defined.

Lemma displaced_mesh_stays_small_witness :
  exists r1 r2 vs1 vs2 o,
    originHeart sample002 = Some o /\
    Part001.updateHeartGeometry 1000 sample002 = Some r1 /\
    heart r1 = Some vs1 /\
    Forall2 (fun v x => Qabs v <= 0.225 * Qabs x) vs1 o /\
    Part002.updateHeartGeometry 1000 sample002 = Some r2 /\
    heart r2 = Some vs2 /\
    Forall2 (fun v x => Qabs v <= 0.15 * Qabs x) vs2 o.
Proof.
  apply (displaced_mesh_stays_small sample002 1000).
  - exact (proj2 sample002_running).
  - exact flat_noise_bounded.
  - vm_compute. discriminate.
  - vm_compute. discriminate.
Defined.

Lemma progress_between_95_and_100_witness :
  exists w1 w2 t1 t2,
    Part001.onHeartProgress 100 1000 sample_ui
    = Some (mkLoadingUI (Some w1) (Some t1)) /\
    Part001.onHeartProgress 250 1000 sample_ui
    = Some (mkLoadingUI (Some w2) (Some t2)) /\
    95 <= w1 /\ w1 <= w2 /\ w2 <= 100 /\
    (95 <= t1 <= t2)%Z /\ (t2 <= 100)%Z.
Proof.
  apply (progress_between_95_and_100 100 250 1000 sample_ui 0 0%Z);
    try reflexivity; vm_compute; discriminate.
Defined.

Lemma volume_stays_in_range_witness :
  0 <= volume sample_audio_after /\ volume sample_audio_after <= 1.
Proof.
  apply (volume_stays_in_range sample_keys sample_page).
  - intros a [= <-]. vm_compute. split; discriminate.
  - vm_compute. reflexivity.
Defined.


Lemma showError_last_wins_witness :
  click_retry (Part001.onGlobalError (Part001.onHeartError sample_document))
  = [LocationReload] /\
  error_retry
    (Part001.showError "second" None
       (Part001.showError "first" (Some ReloadPage) sample_document))
  = Some (mkRetryButton (Some ReloadPage) "none") /\
  error_display (Part001.hideError (Part001.onHeartError sample_document))
  = Some true /\
  click_retry (Part001.hideError (Part001.onHeartError sample_document))
  = loadHeartModel.
Proof.
  apply (proj2 (proj2 (proj2 (proj2
           (showError_last_wins sample_document "first" "second" None
              ReloadPage))))); by eexists.
Defined.

Lemma debounce_waits_for_the_last_call_witness :
  Utils.pending sample_fired.2 = ∅ /\
  exists t0,
    Utils.last_call sample_trace None = Some (t0, sample_fired.1) /\
    t0 + 100 <= 170.
Proof.
  apply (proj2 (debounce_waits_for_the_last_call 100 sample_trace 170 2
                  sample_fired.1 sample_fired.2)).
  vm_compute. reflexivity.
Defined.

Lemma throttle_spaces_the_calls_witness :
  spaced_after 100 None
    (Utils.run_throttled 100 sample_throttle_trace Utils.throttle).2.
Proof.
  apply (throttle_spaces_the_calls 100 0 sample_throttle_trace).
  vm_compute. repeat split; discriminate.
Defined.

Lemma precached_urls_are_served_offline_witness :
  ServiceWorker.onFetch (fun _ => None) "/index.html"
    (ServiceWorker.activate (ServiceWorker.install sample_net sample_caches).1)
  = Some "/index.html"%string /\
  Forall (fun nc => nc.1 = ServiceWorker.CACHE_NAME)
    (ServiceWorker.activate (ServiceWorker.install sample_net sample_caches).1).
Proof.
  apply (precached_urls_are_served_offline sample_net (fun _ => None)
           sample_caches "/index.html" "/index.html"%string).
  - reflexivity.
  - unfold ServiceWorker.urlsToCache. set_solver.
  - reflexivity.
Defined.

Lemma rendering_again_changes_nothing_witness :
  Part001.render false 1000 sample_render001 = Some sample_render001 /\
  Part002.render 1000 sample_render002 = Some sample_render002.
Proof.
  split.
  - apply (proj1 (rendering_again_changes_nothing false 1000 sample001
                    sample_render001)).
    + exact sample001_running.
    + exact sample_render001_eq.
  - apply (proj2 (rendering_again_changes_nothing false 1000 sample002
                    sample_render002)).
    + exact sample002_running.
    + exact sample_render002_eq.
Defined.
